(** * check-labels: resolving a post reference and fetching its labels

    A shallow embedding of [check-labels.py].  The script is a straight-line
    program over dynamically typed values and four kinds of effects (standard
    output, the process environment, interactive prompts and HTTP calls), so
    the embedding has three layers:

    - [Py]: the Python values the script manipulates (text, decoded JSON,
      exceptions) and the operations it applies to them;
    - [World] and the monad [M]: the outside of the process as an oracle, and
      a log of every effect in the order the script performs it;
    - the script's own functions, [parse_input], [create_session], [get_post]
      and [main], transcribed statement by statement. *)

From Stdlib Require Import List ZArith NArith Lia Bool String Ascii.
From Stdlib Require Import DecimalString.
From Stdlib Require Import Floats.PrimFloat.
Import ListNotations.

Set Implicit Arguments.
Open Scope list_scope.

(** ** Python values *)

Module Py.

(** A Python [str] is a sequence of Unicode code points. *)
Definition str := list N.

Fixpoint lit (s : string) : str :=
  match s with
  | EmptyString => []
  | String a r => N_of_ascii a :: lit r
  end.

Arguments lit : simpl never.

Fixpoint eqb (a b : str) : bool :=
  match a, b with
  | [], [] => true
  | x :: a', y :: b' => N.eqb x y && eqb a' b'
  | _, _ => false
  end.

(** [s.startswith(p)] *)
Fixpoint startswith (p s : str) : bool :=
  match p, s with
  | [], _ => true
  | x :: p', y :: s' => N.eqb x y && startswith p' s'
  | _ :: _, [] => false
  end.

(** [needle in s] *)
Fixpoint contains (needle s : str) : bool :=
  startswith needle s ||
  match s with
  | [] => false
  | _ :: s' => contains needle s'
  end.

(** [sep.join(parts)] *)
Fixpoint join (sep : str) (parts : list str) : str :=
  match parts with
  | [] => []
  | [p] => p
  | p :: rest => p ++ sep ++ join sep rest
  end.

(** Decimal text of an [int]. *)
Definition dec (z : Z) : str := lit (NilZero.string_of_int (Z.to_int z)).

(** A decoded JSON document.  An object keeps its members in document order
    (the order [json.dumps] and [str] print them in); the decoder leaves one
    binding per key, and [dict_get] reads the first. *)
#[local] Unset Elimination Schemes.
Inductive json :=
| JNull
| JBool (b : bool)
| JInt (z : Z)
| JFloat (f : float)
| JStr (s : str)
| JArr (l : list json)
| JObj (d : list (str * json)).
#[local] Set Elimination Schemes.

Fixpoint dict_get {A} (d : list (str * A)) (k : str) : option A :=
  match d with
  | [] => None
  | (k', v) :: d' => if eqb k' k then Some v else dict_get d' k
  end.

(** [bool(v)] *)
Definition truthy (v : json) : bool :=
  match v with
  | JNull => false
  | JBool b => b
  | JInt z => negb (Z.eqb z 0)
  | JFloat f => negb (PrimFloat.eqb f 0%float)
  | JStr [] => false
  | JStr (_ :: _) => true
  | JArr [] => false
  | JArr (_ :: _) => true
  | JObj [] => false
  | JObj (_ :: _) => true
  end.

Definition type_name (v : json) : str :=
  match v with
  | JNull => lit "NoneType"
  | JBool _ => lit "bool"
  | JInt _ => lit "int"
  | JFloat _ => lit "float"
  | JStr _ => lit "str"
  | JArr _ => lit "list"
  | JObj _ => lit "dict"
  end.

(** The exceptions the script can see.  All of them are subclasses of
    [Exception]; [SystemExit] is not and is a separate outcome below. *)
Inductive exn :=
| HTTPError (status : Z) (msg : str)      (* raised by [raise_for_status] *)
| RequestException (msg : str)            (* any other failure inside [requests] *)
| JSONDecodeError (msg : str)
| ValueError (msg : str)
| KeyError (key : json)
| IndexError (msg : str)
| AttributeError (obj : json) (attr : str)
| TypeError (op : str) (obj : json)
| EOFError (msg : str).

Inductive result (A : Type) :=
| Ok (a : A)
| Err (e : exn).
Arguments Ok {A} a.
Arguments Err {A} e.

Definition rbind {A B} (r : result A) (k : A -> result B) : result B :=
  match r with
  | Ok a => k a
  | Err e => Err e
  end.

(** The part of the interpreter and of its libraries that the script calls
    but does not define, and whose text output this development does not
    reconstruct: URL splitting and query decoding ([urllib.parse]), the
    rendering of floats and of quoted strings, and the wording of the
    interpreter's own type errors. *)
Record Runtime := {
  urlparse_query : str -> result str;          (* [urlparse(s).query] *)
  parse_qs : str -> list (str * list str);     (* [parse_qs(q)] *)
  float_repr : float -> str;                   (* [repr(f)] *)
  str_repr : str -> str;                       (* [repr(s)] *)
  json_float : float -> str;                   (* [json.dumps(f)] *)
  json_string : str -> str;                    (* [json.dumps(s)] *)
  type_error_text : str -> json -> str         (* [str(TypeError)] of [op] on a value *)
}.

Section WithRuntime.
Variable rt : Runtime.

(** [repr(v)] of a decoded JSON value. *)
Fixpoint repr (v : json) : str :=
  match v with
  | JNull => lit "None"
  | JBool true => lit "True"
  | JBool false => lit "False"
  | JInt z => dec z
  | JFloat f => float_repr rt f
  | JStr s => str_repr rt s
  | JArr l => lit "[" ++ join (lit ", ") (map repr l) ++ lit "]"
  | JObj d =>
      lit "{" ++
      join (lit ", ")
        (map (fun kv => str_repr rt (fst kv) ++ lit ": " ++ repr (snd kv)) d)
      ++ lit "}"
  end.

(** [str(v)], which is what an f-string field [{v}] inserts. *)
Definition to_str (v : json) : str :=
  match v with
  | JStr s => s
  | _ => repr v
  end.

(** Line break and indentation of [json.dumps(..., indent=2)] at a nesting
    depth. *)
Definition newline_indent (level : nat) : str :=
  10%N :: repeat 32%N (2 * level).

(** [json.dumps(v, indent=2)], at nesting depth [level]. *)
Fixpoint dumps_at (level : nat) (v : json) : str :=
  match v with
  | JNull => lit "null"
  | JBool true => lit "true"
  | JBool false => lit "false"
  | JInt z => dec z
  | JFloat f => json_float rt f
  | JStr s => json_string rt s
  | JArr [] => lit "[]"
  | JArr l =>
      lit "[" ++ newline_indent (S level) ++
      join (lit "," ++ newline_indent (S level)) (map (dumps_at (S level)) l)
      ++ newline_indent level ++ lit "]"
  | JObj [] => lit "{}"
  | JObj d =>
      lit "{" ++ newline_indent (S level) ++
      join (lit "," ++ newline_indent (S level))
        (map (fun kv => json_string rt (fst kv) ++ lit ": " ++
                        dumps_at (S level) (snd kv)) d)
      ++ newline_indent level ++ lit "}"
  end.

Definition json_dumps (v : json) : str := dumps_at 0 v.

(** [str(e)] *)
Definition exn_str (e : exn) : str :=
  match e with
  | HTTPError _ msg => msg
  | RequestException msg => msg
  | JSONDecodeError msg => msg
  | ValueError msg => msg
  | KeyError key => repr key
  | IndexError msg => msg
  | AttributeError obj attr =>
      lit "'" ++ type_name obj ++ lit "' object has no attribute '" ++ attr
      ++ lit "'"
  | TypeError op obj => type_error_text rt op obj
  | EOFError msg => msg
  end.

End WithRuntime.

(** [v.get(key, default)]: only a dict has the method. *)
Definition get (v : json) (key : str) (default : json) : result json :=
  match v with
  | JObj d =>
      match dict_get d key with
      | Some x => Ok x
      | None => Ok default
      end
  | _ => Err (AttributeError v (lit "get"))
  end.

(** [v[key]] for a text key. *)
Definition subscript (v : json) (key : str) : result json :=
  match v with
  | JObj d =>
      match dict_get d key with
      | Some x => Ok x
      | None => Err (KeyError (JStr key))
      end
  | _ => Err (TypeError (lit "subscript") v)
  end.

(** [v[0]] *)
Definition item0 (v : json) : result json :=
  match v with
  | JArr (x :: _) => Ok x
  | JArr [] => Err (IndexError (lit "list index out of range"))
  | JStr (c :: _) => Ok (JStr [c])
  | JStr [] => Err (IndexError (lit "string index out of range"))
  | JObj _ => Err (KeyError (JInt 0))
  | _ => Err (TypeError (lit "subscript") v)
  end.

(** [v[:n]] *)
Definition slice_to (n : nat) (v : json) : result json :=
  match v with
  | JStr s => Ok (JStr (firstn n s))
  | JArr l => Ok (JArr (firstn n l))
  | _ => Err (TypeError (lit "slice") v)
  end.

(** [len(v)] *)
Definition len (v : json) : result nat :=
  match v with
  | JStr s => Ok (List.length s)
  | JArr l => Ok (List.length l)
  | JObj d => Ok (List.length d)
  | _ => Err (TypeError (lit "len") v)
  end.

(** The items a [for] loop over [v] visits. *)
Definition iter (v : json) : result (list json) :=
  match v with
  | JStr s => Ok (map (fun c => JStr [c]) s)
  | JArr l => Ok l
  | JObj d => Ok (map (fun kv => JStr (fst kv)) d)
  | _ => Err (TypeError (lit "iter") v)
  end.

End Py.


(** ** The outside of the process *)

Import Py.

Inductive verb := GET | POST.

(** What the script hands to [requests.get] and [requests.post]. *)
Record request := {
  method : verb;
  url : str;
  params : list (str * str);
  headers : list (str * str);
  json_body : option json
}.

(** The body of a response, as [.json()] sees it: a document, or text that
    does not decode (with the decoder's complaint). *)
Inductive content :=
| Json (doc : json)
| NotJson (complaint : str).

(** What the script reads off a response object: [status_code], the [reason]
    and [url] that [raise_for_status] quotes, and the body. *)
Record response := {
  status_code : Z;
  reason : str;
  resp_url : str;
  payload : content
}.

(** A call either delivers a response or fails inside [requests] (connection,
    DNS, timeout, ...), which is never an [HTTPError]. *)
Inductive reply :=
| Response (r : response)
| Failed (msg : str).

(** Every effect of a run, with what the outside answered. *)
Inductive event :=
| EvPrint (line : str)
| EvEnv (name : str) (value : option str)
| EvInput (prompt : str) (answer : result str)
| EvGetpass (prompt : str) (answer : result str)
| EvHttp (req : request) (rep : reply).

Definition trace := list event.

(** The outside as an oracle.  Answers of the terminal and of the network may
    depend on everything that has happened so far. *)
Record World := {
  argv : list str;
  environ : str -> option str;
  stdin_line : trace -> str -> result str;
  tty_secret : trace -> str -> result str;
  http : trace -> request -> reply
}.

(** ** Effects: a log of events, exceptions, and [SystemExit] *)

Inductive outcome (A : Type) :=
| Ret (a : A)
| Exc (e : exn)
| SysExit (code : Z).
Arguments Ret {A} a.
Arguments Exc {A} e.
Arguments SysExit {A} code.

Definition M (A : Type) := trace -> outcome A * trace.

Definition ret {A} (a : A) : M A := fun tr => (Ret a, tr).
Definition raise {A} (e : exn) : M A := fun tr => (Exc e, tr).
Definition sys_exit {A} (code : Z) : M A := fun tr => (SysExit code, tr).

Definition bind {A B} (m : M A) (k : A -> M B) : M B :=
  fun tr =>
    match m tr with
    | (Ret a, tr') => k a tr'
    | (Exc e, tr') => (Exc e, tr')
    | (SysExit c, tr') => (SysExit c, tr')
    end.

Declare Scope py_scope.
Delimit Scope py_scope with py.
Notation "x <- m ;; k" := (bind m (fun x => k))
  (at level 100, m at next level, right associativity) : py_scope.
Notation "m ;; k" := (bind m (fun _ => k))
  (at level 100, right associativity) : py_scope.
Open Scope py_scope.

Definition lift {A} (r : result A) : M A :=
  match r with
  | Ok a => ret a
  | Err e => raise e
  end.

(** [try: m  except Exception as e: h e].  [SystemExit] passes through. *)
Definition try_except {A} (m : M A) (h : exn -> M A) : M A :=
  fun tr =>
    match m tr with
    | (Exc e, tr') => h e tr'
    | other => other
    end.

Definition emit (e : event) : M unit := fun tr => (Ret tt, tr ++ [e]).

Definition print (line : str) : M unit := emit (EvPrint line).

(** [for x in items: body x] *)
Fixpoint for_each {A} (items : list A) (body : A -> M unit) : M unit :=
  match items with
  | [] => ret tt
  | x :: rest => body x ;; for_each rest body
  end.

Section Process.
Variable w : World.

(** [os.environ.get(name)] *)
Definition environ_get (name : str) : M (option str) :=
  fun tr => let v := environ w name in (Ret v, tr ++ [EvEnv name v]).

(** [input(prompt)] *)
Definition input (prompt : str) : M str :=
  fun tr =>
    let a := stdin_line w tr prompt in
    (match a with Ok s => Ret s | Err e => Exc e end,
     tr ++ [EvInput prompt a]).

(** [getpass(prompt)] *)
Definition getpass (prompt : str) : M str :=
  fun tr =>
    let a := tty_secret w tr prompt in
    (match a with Ok s => Ret s | Err e => Exc e end,
     tr ++ [EvGetpass prompt a]).

Definition send (req : request) : M response :=
  fun tr =>
    let rep := http w tr req in
    (match rep with
     | Response r => Ret r
     | Failed msg => Exc (RequestException msg)
     end,
     tr ++ [EvHttp req rep]).

(** [requests.get(url, params=..., headers=...)] *)
Definition requests_get (u : str) (ps hs : list (str * str)) : M response :=
  send {| method := GET; url := u; params := ps; headers := hs;
          json_body := None |}.

(** [requests.post(url, json=...)] *)
Definition requests_post (u : str) (body : json) : M response :=
  send {| method := POST; url := u; params := []; headers := [];
          json_body := Some body |}.

End Process.

(** [resp.raise_for_status()]: statuses 400..599 raise [HTTPError]. *)
Definition raise_for_status (r : response) : result unit :=
  let code := status_code r in
  if (400 <=? code)%Z && (code <? 500)%Z then
    Err (HTTPError code
           (dec code ++ lit " Client Error: " ++ reason r ++ lit " for url: "
            ++ resp_url r))
  else if (500 <=? code)%Z && (code <? 600)%Z then
    Err (HTTPError code
           (dec code ++ lit " Server Error: " ++ reason r ++ lit " for url: "
            ++ resp_url r))
  else Ok tt.

(** [resp.json()] *)
Definition resp_json (r : response) : result json :=
  match payload r with
  | Json doc => Ok doc
  | NotJson complaint => Err (JSONDecodeError complaint)
  end.

(** ** The pattern [profile/([^/]+)/post/([^/?\s]+)]

    Both groups are greedy runs of a character class, and what follows the
    first group begins with a character outside its class, so a match at a
    position, when there is one, takes the longest run for each group;
    [re.search] returns the match at the leftmost position that has one. *)

(** The class [\s] of a [str] pattern: Unicode white space. *)
Definition is_space (c : N) : bool :=
  ((9 <=? c) && (c <=? 13) || (28 <=? c) && (c <=? 32) ||
   (c =? 133) || (c =? 160) || (c =? 5760) ||
   (8192 <=? c) && (c <=? 8202) || (c =? 8232) || (c =? 8233) ||
   (c =? 8239) || (c =? 8287) || (c =? 12288))%N.

(** [[^/]] *)
Definition handle_char (c : N) : bool := negb (c =? 47)%N.

(** [[^/?\s]] *)
Definition rkey_char (c : N) : bool :=
  negb ((c =? 47)%N || (c =? 63)%N || is_space c).

(** The longest prefix of [s] inside a class, and the rest. *)
Fixpoint span (p : N -> bool) (s : str) : str * str :=
  match s with
  | [] => ([], [])
  | c :: s' =>
      if p c then let (a, b) := span p s' in (c :: a, b) else ([], s)
  end.

(** What is left of [s] after the literal [p], if [s] begins with it. *)
Fixpoint after_prefix (p s : str) : option str :=
  match p, s with
  | [], _ => Some s
  | x :: p', y :: s' => if (x =? y)%N then after_prefix p' s' else None
  | _ :: _, [] => None
  end.

(** A match of the pattern that starts at the head of [s]. *)
Definition match_at (s : str) : option (str * str) :=
  match after_prefix (lit "profile/") s with
  | None => None
  | Some s1 =>
      match span handle_char s1 with
      | ([], _) => None
      | (handle, s2) =>
          match after_prefix (lit "/post/") s2 with
          | None => None
          | Some s3 =>
              match span rkey_char s3 with
              | ([], _) => None
              | (rkey, _) => Some (handle, rkey)
              end
          end
      end
  end.

(** [re.search(pattern, s)], as the pair [match.groups()]. *)
Fixpoint re_search (s : str) : option (str * str) :=
  match match_at s with
  | Some m => Some m
  | None =>
      match s with
      | [] => None
      | _ :: s' => re_search s'
      end
  end.

(** ** The script *)

Definition RESOLVE_HANDLE : str :=
  lit "https://bsky.social/xrpc/com.atproto.identity.resolveHandle".
Definition CREATE_SESSION : str :=
  lit "https://bsky.social/xrpc/com.atproto.server.createSession".
Definition GET_POSTS : str :=
  lit "https://bsky.social/xrpc/app.bsky.feed.getPosts".

(** [params.get(name, [None])[0]] on the result of [parse_qs]. *)
Definition first_value (ps : list (str * list str)) (name : str)
  : result (option str) :=
  match dict_get ps name with
  | None => Ok None
  | Some (v :: _) => Ok (Some v)
  | Some [] => Err (IndexError (lit "list index out of range"))
  end.

(** Truth value of a [str] or [None]. *)
Definition present (o : option str) : bool :=
  match o with
  | Some (_ :: _) => true
  | _ => false
  end.

Definition text_of (o : option str) : str :=
  match o with
  | Some s => s
  | None => lit "None"
  end.

(** Line 152: [post['author']['handle']]. *)
Definition author_of (post : json) : result json :=
  rbind (subscript post (lit "author")) (fun a => subscript a (lit "handle")).

(** Line 153: [post['record'].get('text', '')[:100]]. *)
Definition text_of_post (post : json) : result json :=
  rbind (subscript post (lit "record"))
    (fun r => rbind (get r (lit "text") (JStr [])) (slice_to 100)).

Section Script.
Variable rt : Runtime.
Variable w : World.

(** [parse_input], lines 17-59. *)
Definition parse_input (input_str : str) : M str :=
  if startswith (lit "at://") input_str then
    ret input_str
  else if contains (lit "xrpc/com.atproto.repo.getRecord") input_str then
    query <- lift (urlparse_query rt input_str) ;;
    let ps := parse_qs rt query in
    repo <- lift (first_value ps (lit "repo")) ;;
    collection <- lift (first_value ps (lit "collection")) ;;
    rkey <- lift (first_value ps (lit "rkey")) ;;
    if present repo && present collection && present rkey then
      ret (lit "at://" ++ text_of repo ++ lit "/" ++ text_of collection
           ++ lit "/" ++ text_of rkey)
    else raise (ValueError (lit "Could not parse API URL"))
  else if contains (lit "bsky.app") input_str then
    match re_search input_str with
    | Some (handle, rkey) =>
        print (128269%N :: lit " Resolving handle " ++ handle ++ lit "...") ;;
        resp <- requests_get w RESOLVE_HANDLE [(lit "handle", handle)] [] ;;
        lift (raise_for_status resp) ;;
        body <- lift (resp_json resp) ;;
        did <- lift (get body (lit "did") JNull) ;;
        if negb (truthy did) then
          raise (ValueError (lit "Could not resolve handle to DID"))
        else
          ret (lit "at://" ++ to_str rt did ++ lit "/app.bsky.feed.post/"
               ++ rkey)
    | None => raise (ValueError (lit "Could not parse Bluesky URL"))
    end
  else raise (ValueError (lit "Unrecognized input format")).

(** [create_session], lines 62-72. *)
Definition create_session (handle password : str) : M json :=
  resp <- requests_post w CREATE_SESSION
            (JObj [(lit "identifier", JStr handle);
                   (lit "password", JStr password)]) ;;
  lift (raise_for_status resp) ;;
  body <- lift (resp_json resp) ;;
  lift (subscript body (lit "accessJwt")).

(** [get_post], lines 77-79: the headers of the request. *)
Definition auth_headers (access_token : json) : list (str * str) :=
  if truthy access_token then
    [(lit "Authorization", lit "Bearer " ++ to_str rt access_token)]
  else [].

(** [get_post], lines 75-87.  The default [access_token=None] is [JNull]. *)
Definition get_post (at_uri : str) (access_token : json) : M json :=
  let headers := auth_headers access_token in
  resp <- requests_get w GET_POSTS [(lit "uris", at_uri)] headers ;;
  lift (raise_for_status resp) ;;
  lift (resp_json resp).

(** [main], lines 110-137: the unauthenticated attempt and the handler of
    its [requests.HTTPError]. *)
Definition fetch (at_uri : str) : M json :=
  print (128275%N :: lit " Attempting unauthenticated request...") ;;
  try_except (get_post at_uri JNull)
    (fun e =>
       match e with
       | HTTPError status _ =>
           if (status =? 401)%Z then
             print (128272%N :: lit " Authentication required. Logging in...") ;;
             handle <- environ_get w (lit "BLUESKY_HANDLE") ;;
             handle <- (if present handle then ret (text_of handle)
                        else input w (lit "Bluesky handle: ")) ;;
             password <- environ_get w (lit "BLUESKY_APP_PASSWORD") ;;
             password <- (if present password then ret (text_of password)
                          else getpass w (lit "App password: ")) ;;
             access_token <- create_session handle password ;;
             print (9989%N :: lit " Authentication successful!") ;;
             print [] ;;
             get_post at_uri access_token
           else raise e
       | _ => raise e
       end).

(** One turn of the loop of lines 162-165. *)
Definition show_label (label : json) : M unit :=
  val <- lift (get label (lit "val") (JStr (lit "unknown"))) ;;
  src <- lift (get label (lit "src") (JStr (lit "unknown"))) ;;
  print (lit "  " ++ 8226%N :: lit " " ++ to_str rt val ++ lit " (from: "
         ++ to_str rt src ++ lit ")").

(** [main], lines 139-171: what is printed about the fetched document. *)
Definition report (data : json) : M unit :=
  posts <- lift (get data (lit "posts") (JArr [])) ;;
  if negb (truthy posts) then
    print (10060%N :: lit " Post not found") ;;
    sys_exit 1
  else
    post <- lift (item0 posts) ;;
    labels <- lift (get post (lit "labels") (JArr [])) ;;
    print (9989%N :: lit " Post found") ;;
    print [] ;;
    author <- lift (author_of post) ;;
    text <- lift (text_of_post post) ;;
    print (128100%N :: lit " Author: " ++ to_str rt author) ;;
    print (128221%N :: lit " Text: " ++ to_str rt text ++ lit "...") ;;
    print [] ;;
    (if truthy labels then
       n <- lift (len labels) ;;
       print (9888%N :: 65039%N :: lit "  Found " ++ dec (Z.of_nat n)
              ++ lit " label(s):") ;;
       print [] ;;
       items <- lift (iter labels) ;;
       for_each items show_label
     else
       print (9989%N :: lit " No labels found")) ;;
    print [] ;;
    print (128202%N :: lit " Full label data:") ;;
    print (json_dumps rt labels).

Definition usage : M unit :=
  print (lit "Usage: python check-labels.py <post-uri-or-url>") ;;
  print [] ;;
  print (lit "Examples:") ;;
  print (lit "  python check-labels.py at://did:plc:abc123/app.bsky.feed.post/3lylub2qvq22i") ;;
  print (lit "  python check-labels.py https://bsky.app/profile/handle.bsky.social/post/3lylub2qvq22i") ;;
  print [] ;;
  print (lit "Environment variables (optional):") ;;
  print (lit "  BLUESKY_HANDLE - Your Bluesky handle") ;;
  print (lit "  BLUESKY_APP_PASSWORD - Your app password").

(** [main], lines 90-175. *)
Definition main : M unit :=
  if (List.length (argv w) <? 2)%nat then
    usage ;;
    sys_exit 1
  else
    let input_str := nth 1 (argv w) [] in
    try_except
      (at_uri <- parse_input input_str ;;
       print (128205%N :: lit " Checking labels for: " ++ at_uri) ;;
       print [] ;;
       data <- fetch at_uri ;;
       report data)
      (fun e =>
         print (10060%N :: lit " Error: " ++ exn_str rt e) ;;
         sys_exit 1).

(** The process: the exit status and everything that happened.  Falling off
    the end of [main] is status 0; an exception that escaped would be 1. *)
Definition run : Z * trace :=
  match main [] with
  | (Ret _, tr) => (0%Z, tr)
  | (SysExit code, tr) => (code, tr)
  | (Exc _, tr) => (1%Z, tr)
  end.

End Script.

(** ** Reading a trace *)

(** The calls made to one endpoint, in order, each with its reply. *)
Fixpoint calls_to (u : str) (tr : trace) : list (request * reply) :=
  match tr with
  | [] => []
  | EvHttp req rep :: tr' =>
      if eqb (url req) u then (req, rep) :: calls_to u tr'
      else calls_to u tr'
  | _ :: tr' => calls_to u tr'
  end.

(** An event that reads or asks for a credential. *)
Definition is_credential (e : event) : bool :=
  match e with
  | EvEnv _ _ | EvInput _ _ | EvGetpass _ _ => true
  | _ => false
  end.

Definition credential_events (tr : trace) : trace := filter is_credential tr.

(** A line of the top-level handler, [Error: <message>]. *)
Definition is_error_line (e : event) : bool :=
  match e with
  | EvPrint line => startswith (10060%N :: lit " Error: ") line
  | _ => false
  end.

Definition error_lines (tr : trace) : trace := filter is_error_line tr.

(** The lines written to standard output by [print]. *)
Fixpoint printed (tr : trace) : list str :=
  match tr with
  | [] => []
  | EvPrint line :: tr' => line :: printed tr'
  | _ :: tr' => printed tr'
  end.

(** What [get_post] makes of the reply to its request. *)
Definition lookup_result (rep : reply) : result json :=
  match rep with
  | Failed msg => Err (RequestException msg)
  | Response r => rbind (raise_for_status r) (fun _ => resp_json r)
  end.

(** What [create_session] makes of the reply to its request. *)
Definition session_token (rep : reply) : result json :=
  match rep with
  | Failed msg => Err (RequestException msg)
  | Response r =>
      rbind (raise_for_status r)
        (fun _ => rbind (resp_json r) (fun b => subscript b (lit "accessJwt")))
  end.

Definition outcome_of {A} (r : result A) : outcome A :=
  match r with
  | Ok a => Ret a
  | Err e => Exc e
  end.

(** The requests the script builds. *)
Definition resolve_request (handle : str) : request :=
  {| method := GET; url := RESOLVE_HANDLE; params := [(lit "handle", handle)];
     headers := []; json_body := None |}.

Definition login_request (handle password : str) : request :=
  {| method := POST; url := CREATE_SESSION; params := []; headers := [];
     json_body := Some (JObj [(lit "identifier", JStr handle);
                              (lit "password", JStr password)]) |}.

Definition lookup_request (at_uri : str) (hs : list (str * str)) : request :=
  {| method := GET; url := GET_POSTS; params := [(lit "uris", at_uri)];
     headers := hs; json_body := None |}.

(** The canonical form [at://<account>/<collection>/<record-key>]. *)
Definition triple (account collection rkey : str) : str :=
  lit "at://" ++ account ++ lit "/" ++ collection ++ lit "/" ++ rkey.

Definition canonical (s : str) : Prop :=
  exists account collection rkey, s = triple account collection rkey.

(** An account identifier (a DID), as opposed to a handle. *)
Definition is_account_identifier (s : str) : bool := startswith (lit "did:") s.

(** ** Sample runtime and worlds *)

Definition quote (s : str) : str := 34%N :: s ++ [34%N].

(** Split a text at each occurrence of a character. *)
Fixpoint split_on (sep : N) (s : str) : list str :=
  match s with
  | [] => [[]]
  | c :: s' =>
      if (c =? sep)%N then [] :: split_on sep s'
      else
        match split_on sep s' with
        | p :: ps => (c :: p) :: ps
        | [] => [[c]]
        end
  end.

(** One [name=value] field of a query; a field without a value is dropped. *)
Definition query_field (field : str) : list (str * list str) :=
  match span (fun c => negb (c =? 61)%N) field with
  | (name, _ :: (_ :: _) as value) => [(name, [value])]
  | _ => []
  end.

(** The query of a URL: what stands between its first [?] and a [#]. *)
Definition query_of (s : str) : str :=
  match snd (span (fun c => negb (c =? 63)%N) s) with
  | [] => []
  | _ :: q => fst (span (fun c => negb (c =? 35)%N) q)
  end.

(** A runtime for plain URLs and ASCII text: no escapes in queries, no
    characters that need quoting. *)
Definition plain_runtime : Runtime :=
  {| urlparse_query := fun s => Ok (query_of s);
     parse_qs := fun q => flat_map query_field (split_on 38 q);
     float_repr := fun _ => lit "0.0";
     str_repr := fun s => 39%N :: s ++ [39%N];
     json_float := fun _ => lit "0.0";
     json_string := quote;
     type_error_text := fun _ v => lit "unsupported operand: " ++ type_name v |}.

Definition ok_reply (body : json) : reply :=
  Response {| status_code := 200; reason := lit "OK"; resp_url := [];
              payload := Json body |}.

Definition status_reply (code : Z) (why : str) : reply :=
  Response {| status_code := code; reason := why; resp_url := [];
              payload := NotJson (lit "Expecting value") |}.

(** A world with no terminal input, given its environment and network. *)
Definition world_of (arg : str) (env : str -> option str)
    (net : trace -> request -> reply) : World :=
  {| argv := [lit "check-labels.py"; arg];
     environ := env;
     stdin_line := fun _ _ => Err (EOFError (lit "EOF when reading a line"));
     tty_secret := fun _ _ => Err (EOFError (lit "EOF when reading a line"));
     http := net |}.

Definition no_env : str -> option str := fun _ => None.

Definition env_credentials : str -> option str :=
  fun name =>
    if eqb name (lit "BLUESKY_HANDLE") then Some (lit "alice.example")
    else if eqb name (lit "BLUESKY_APP_PASSWORD") then Some (lit "hunter2")
    else None.

Definition has_authorization (req : request) : bool :=
  match dict_get (headers req) (lit "Authorization") with
  | Some _ => true
  | None => false
  end.

Definition label (val src : string) : json :=
  JObj [(lit "val", JStr (lit val)); (lit "src", JStr (lit src))].

Definition post_of (handle text : string) (fields : list (str * json)) : json :=
  JObj ([(lit "author", JObj [(lit "handle", JStr (lit handle))]);
         (lit "record", JObj [(lit "text", JStr (lit text))])] ++ fields).

Definition posts_doc (posts : list json) : json :=
  JObj [(lit "posts", JArr posts)].

(** A network that serves one document to every request. *)
Definition serving (doc : json) : trace -> request -> reply :=
  fun _ _ => ok_reply doc.

(** A network that wants a bearer token for the post lookup, answers the login
    with [login], and serves [doc] to an authorised lookup. *)
Definition guarded (login : reply) (doc : json) : trace -> request -> reply :=
  fun _ req =>
    if eqb (url req) CREATE_SESSION then login
    else if has_authorization req then ok_reply doc
    else status_reply 401 (lit "Unauthorized").

Definition session_doc (token : string) : json :=
  JObj [(lit "accessJwt", JStr (lit token))].

Definition canonical_arg : str :=
  lit "at://did:plc:abc123/app.bsky.feed.post/xyz".

(** ** Observations, shapes of runs, and the claims as they are worded *)

(** Events that are lines of output only. *)
Definition is_print (e : event) : bool :=
  match e with
  | EvPrint _ => true
  | _ => false
  end.

(** [m] adds to the log events that all satisfy [q], and nothing else. *)
Definition appends (q : event -> bool) {A} (m : M A) : Prop :=
  forall tr o tr', m tr = (o, tr') ->
    exists ev, tr' = tr ++ ev /\ forallb q ev = true.

(** [parse_input] prints progress lines and calls the identity-resolution
    endpoint, and does nothing else. *)
Definition resolver_event (e : event) : bool :=
  match e with
  | EvPrint _ => negb (is_error_line e)
  | EvHttp req _ => eqb (url req) RESOLVE_HANDLE
  | _ => false
  end.

(** A reply that makes [get_post] raise an [HTTPError] of status 401. *)
Definition unauthorized (rep : reply) : bool :=
  match rep with
  | Response r => (status_code r =? 401)%Z
  | Failed _ => false
  end.

(** A prompt that ended in an exception instead of an answer. *)
Definition is_failed_prompt (e : event) : bool :=
  match e with
  | EvInput _ (Err _) | EvGetpass _ (Err _) => true
  | _ => false
  end.

Definition prompt_failed (tr : trace) : bool := existsb is_failed_prompt tr.

(** The shapes a fetch can take, read off the calls it made: its outcome, its
    post-lookup calls, its login calls, and the credential events. *)
Inductive fetched (rt : Runtime) (at_uri : str)
  : outcome json -> list (request * reply) -> list (request * reply) ->
    trace -> Prop :=
| fetched_direct rep0 :
    unauthorized rep0 = false ->
    fetched rt at_uri (outcome_of (lookup_result rep0))
      [(lookup_request at_uri [], rep0)] [] []
| fetched_no_credentials r0 e cs :
    status_code r0 = 401%Z ->
    prompt_failed cs = true ->
    fetched rt at_uri (Exc e)
      [(lookup_request at_uri [], Response r0)] [] cs
| fetched_login_failed r0 handle password lrep e cs :
    status_code r0 = 401%Z ->
    session_token lrep = Err e ->
    fetched rt at_uri (Exc e)
      [(lookup_request at_uri [], Response r0)]
      [(login_request handle password, lrep)] cs
| fetched_retried r0 handle password lrep token rep1 cs :
    status_code r0 = 401%Z ->
    session_token lrep = Ok token ->
    fetched rt at_uri (outcome_of (lookup_result rep1))
      [(lookup_request at_uri [], Response r0);
       (lookup_request at_uri (auth_headers rt token), rep1)]
      [(login_request handle password, lrep)] cs.

Definition never_exits {A} (m : M A) : Prop :=
  forall tr c tr', m tr <> (SysExit c, tr').

(** The top-level handler's line for an exception. *)
Definition error_line (rt : Runtime) (e : exn) : event :=
  EvPrint (10060%N :: lit " Error: " ++ exn_str rt e).

(** How a run ends once the body of the [try] of [main] has ended with an
    outcome: fall off the end (status 0), exit, or report the exception and
    exit with status 1. *)
Definition settle (rt : Runtime) {A} (o : outcome A) (tr : trace) : Z * trace :=
  match o with
  | Ret _ => (0%Z, tr)
  | SysExit code => (code, tr)
  | Exc e => (1%Z, tr ++ [error_line rt e])
  end.

Definition checking_line (at_uri : str) : event :=
  EvPrint (128205%N :: lit " Checking labels for: " ++ at_uri).

(** The last call of a list of calls. *)
Definition last_call (calls : list (request * reply))
  : option (request * reply) := hd_error (rev calls).

(** The header a retried lookup carries for a session token. *)
Definition bearer (rt : Runtime) (token : json) : list (str * str) :=
  [(lit "Authorization", lit "Bearer " ++ to_str rt token)].

(** The claim C1 as it is worded: after a 401 on the unauthenticated lookup
    there is exactly one login call and exactly one retried lookup, which
    carries the token of that login. *)
Definition retries_with_token (rt : Runtime) (w : World) : Prop :=
  forall req0 r0,
    hd_error (calls_to GET_POSTS (snd (run rt w))) = Some (req0, Response r0) ->
    status_code r0 = 401%Z ->
    exists lreq lrep token retry rep1,
      calls_to CREATE_SESSION (snd (run rt w)) = [(lreq, lrep)] /\
      session_token lrep = Ok token /\
      calls_to GET_POSTS (snd (run rt w)) =
        [(req0, Response r0); (retry, rep1)] /\
      headers retry = bearer rt token.

(** A network that asks for a token and then rejects the login. *)
Definition login_rejected : World :=
  world_of canonical_arg env_credentials
    (guarded (status_reply 500 (lit "Internal Server Error")) (posts_doc [])).

(** A network that asks for a token and accepts the login. *)
Definition login_accepted : World :=
  world_of canonical_arg env_credentials
    (guarded (ok_reply (session_doc "jwt-1"))
       (posts_doc [post_of "alice.example" "hello" []])).

(** A network that serves the post to anyone. *)
Definition open_network : World :=
  world_of canonical_arg no_env
    (serving (posts_doc [post_of "alice.example" "hello" []])).

Definition not_found_line : event := EvPrint (10060%N :: lit " Post not found").

(** The end of the output of a post that has no labels. *)
Definition no_labels_lines : trace :=
  [EvPrint (9989%N :: lit " No labels found"); EvPrint [];
   EvPrint (128202%N :: lit " Full label data:"); EvPrint (lit "[]")].

(** The lines that announce a post, lines 148-156. *)
Definition post_lines (rt : Runtime) (author text : json) : trace :=
  [EvPrint (9989%N :: lit " Post found"); EvPrint [];
   EvPrint (128100%N :: lit " Author: " ++ to_str rt author);
   EvPrint (128221%N :: lit " Text: " ++ to_str rt text ++ lit "...");
   EvPrint []].

(** A network that serves an empty list of posts. *)
Definition empty_network : World :=
  world_of canonical_arg no_env (serving (posts_doc [])).

(** A network that serves a post with no member at all. *)
Definition bare_post_network : World :=
  world_of canonical_arg no_env (serving (posts_doc [JObj []])).

(** A network that serves two posts. *)
Definition two_posts_network : World :=
  world_of canonical_arg no_env
    (serving (posts_doc [post_of "alice.example" "hello" [];
                         post_of "bob.example" "bye"
                           [(lit "labels", JArr [label "spam" "mod1"])]])).

Definition resolving_line (handle : str) : event :=
  EvPrint (128269%N :: lit " Resolving handle " ++ handle ++ lit "...").

(** What [parse_input] makes of the reply of the identity-resolution
    endpoint, lines 49-55. *)
Definition resolved (rt : Runtime) (rkey : str) (rep : reply) : result str :=
  match rep with
  | Failed msg => Err (RequestException msg)
  | Response r =>
      rbind (raise_for_status r) (fun _ =>
      rbind (resp_json r) (fun body =>
      rbind (get body (lit "did") JNull) (fun did =>
      if negb (truthy did) then
        Err (ValueError (lit "Could not resolve handle to DID"))
      else
        Ok (lit "at://" ++ to_str rt did ++ lit "/app.bsky.feed.post/"
            ++ rkey))))
  end.

(** A reference that names an account only. *)
Definition account_only_arg : str := lit "at://did:plc:abc123".

(** A web URL whose profile segment is a handle. *)
Definition handle_profile_arg : str :=
  lit "https://bsky.app/profile/alice.example/post/xyz".

(** A web URL whose profile segment is already an account identifier. *)
Definition did_profile_arg : str :=
  lit "https://bsky.app/profile/did:plc:abc123/post/xyz".


Definition did_doc : json := JObj [(lit "did", JStr (lit "did:plc:999"))].

(** The claim C4 as it is worded, for one input: whatever the resolver
    returns is a canonical triple. *)
Definition yields_canonical (rt : Runtime) (w : World) (input_str : str)
  : Prop :=
  forall uri tr, parse_input rt w input_str [] = (Ret uri, tr) -> canonical uri.

(** The claim C5 as it is worded, for one input: the identity-resolution
    endpoint is not called when the profile segment is an account
    identifier. *)
Definition resolves_only_handles (rt : Runtime) (w : World) (input_str : str)
  : Prop :=
  forall segment rkey,
    re_search input_str = Some (segment, rkey) ->
    is_account_identifier segment = true ->
    calls_to RESOLVE_HANDLE (snd (parse_input rt w input_str [])) = [].


(** ** Further observations: the path of a fetch, event by event *)

Definition attempt_line : event :=
  EvPrint (128275%N :: lit " Attempting unauthenticated request...").

Definition login_line : event :=
  EvPrint (128272%N :: lit " Authentication required. Logging in...").

Definition login_ok_line : event :=
  EvPrint (9989%N :: lit " Authentication successful!").

(** Lines 121-123: the handle comes from the environment when the variable
    is set and not empty, and from [input] otherwise. *)
Inductive asked_handle (w : World) : result str -> trace -> Prop :=
| handle_from_env v :
    environ w (lit "BLUESKY_HANDLE") = Some v ->
    present (Some v) = true ->
    asked_handle w (Ok v) [EvEnv (lit "BLUESKY_HANDLE") (Some v)]
| handle_from_prompt a :
    present (environ w (lit "BLUESKY_HANDLE")) = false ->
    asked_handle w a
      [EvEnv (lit "BLUESKY_HANDLE") (environ w (lit "BLUESKY_HANDLE"));
       EvInput (lit "Bluesky handle: ") a].

(** Lines 125-127: the same for the password, with [getpass]. *)
Inductive asked_password (w : World) : result str -> trace -> Prop :=
| password_from_env v :
    environ w (lit "BLUESKY_APP_PASSWORD") = Some v ->
    present (Some v) = true ->
    asked_password w (Ok v) [EvEnv (lit "BLUESKY_APP_PASSWORD") (Some v)]
| password_from_prompt a :
    present (environ w (lit "BLUESKY_APP_PASSWORD")) = false ->
    asked_password w a
      [EvEnv (lit "BLUESKY_APP_PASSWORD")
         (environ w (lit "BLUESKY_APP_PASSWORD"));
       EvGetpass (lit "App password: ") a].

(** The five paths through lines 110-137, each with its outcome and the
    events it adds to the log, in order. *)
Inductive fetch_path (rt : Runtime) (w : World) (at_uri : str)
  : outcome json -> trace -> Prop :=
| path_direct rep0 :
    unauthorized rep0 = false ->
    fetch_path rt w at_uri (outcome_of (lookup_result rep0))
      [attempt_line; EvHttp (lookup_request at_uri []) rep0]
| path_no_handle r0 e evh :
    status_code r0 = 401%Z ->
    asked_handle w (Err e) evh ->
    fetch_path rt w at_uri (Exc e)
      ([attempt_line; EvHttp (lookup_request at_uri []) (Response r0);
        login_line] ++ evh)
| path_no_password r0 handle e evh evp :
    status_code r0 = 401%Z ->
    asked_handle w (Ok handle) evh ->
    asked_password w (Err e) evp ->
    fetch_path rt w at_uri (Exc e)
      ([attempt_line; EvHttp (lookup_request at_uri []) (Response r0);
        login_line] ++ evh ++ evp)
| path_login_failed r0 handle password evh evp lrep e :
    status_code r0 = 401%Z ->
    asked_handle w (Ok handle) evh ->
    asked_password w (Ok password) evp ->
    session_token lrep = Err e ->
    fetch_path rt w at_uri (Exc e)
      ([attempt_line; EvHttp (lookup_request at_uri []) (Response r0);
        login_line] ++ evh ++ evp ++
       [EvHttp (login_request handle password) lrep])
| path_retried r0 handle password evh evp lrep token rep1 :
    status_code r0 = 401%Z ->
    asked_handle w (Ok handle) evh ->
    asked_password w (Ok password) evp ->
    session_token lrep = Ok token ->
    fetch_path rt w at_uri (outcome_of (lookup_result rep1))
      ([attempt_line; EvHttp (lookup_request at_uri []) (Response r0);
        login_line] ++ evh ++ evp ++
       [EvHttp (login_request handle password) lrep; login_ok_line;
        EvPrint [];
        EvHttp (lookup_request at_uri (auth_headers rt token)) rep1]).

(** The addresses of the HTTP calls of a trace, in order. *)
Fixpoint http_urls (tr : trace) : list str :=
  match tr with
  | [] => []
  | EvHttp req _ :: tr' => url req :: http_urls tr'
  | _ :: tr' => http_urls tr'
  end.

(** The requests of a trace, in order. *)
Fixpoint requests_of (tr : trace) : list request :=
  match tr with
  | [] => []
  | EvHttp req _ :: tr' => req :: requests_of tr'
  | _ :: tr' => requests_of tr'
  end.

(** A prompt on the terminal. *)
Definition is_prompt (e : event) : bool :=
  match e with
  | EvInput _ _ | EvGetpass _ _ => true
  | _ => false
  end.

(** An event from outside the fetch: a line, or a call of the
    identity-resolution endpoint. *)
Definition outside_fetch (e : event) : bool := is_print e || resolver_event e.

(** A world with the credentials in its environment and a terminal that
    would answer, if asked. *)
Definition talkative_login : World :=
  {| argv := [lit "check-labels.py"; canonical_arg];
     environ := env_credentials;
     stdin_line := fun _ _ => Ok (lit "mallory.example");
     tty_secret := fun _ _ => Ok (lit "letmein");
     http := guarded (ok_reply (session_doc "jwt-1"))
               (posts_doc [post_of "alice.example" "hello" []]) |}.

(** An environment whose handle variable is set but empty. *)
Definition env_empty_handle : str -> option str :=
  fun name =>
    if eqb name (lit "BLUESKY_HANDLE") then Some []
    else if eqb name (lit "BLUESKY_APP_PASSWORD") then Some (lit "hunter2")
    else None.

(** A world with an empty handle variable and a terminal that answers. *)
Definition empty_handle_login : World :=
  {| argv := [lit "check-labels.py"; canonical_arg];
     environ := env_empty_handle;
     stdin_line := fun _ _ => Ok (lit "alice.example");
     tty_secret := fun _ _ => Ok (lit "letmein");
     http := guarded (ok_reply (session_doc "jwt-1"))
               (posts_doc [post_of "alice.example" "hello" []]) |}.

(** A network whose login yields an empty token, and that serves the post to
    anyone on the second lookup. *)
Definition empty_token_network : World :=
  world_of canonical_arg env_credentials
    (fun tr req =>
       if eqb (url req) CREATE_SESSION then
         ok_reply (JObj [(lit "accessJwt", JStr [])])
       else
         match calls_to GET_POSTS tr with
         | [] => status_reply 401 (lit "Unauthorized")
         | _ => ok_reply (posts_doc [post_of "alice.example" "hello" []])
         end).

(** A network that answers the lookup with a server error. *)
Definition failing_network : World :=
  world_of canonical_arg no_env
    (fun _ _ => status_reply 503 (lit "Service Unavailable")).

(** The response of [status_reply]. *)
Definition status_response (code : Z) (why : str) : response :=
  {| status_code := code; reason := why; resp_url := [];
     payload := NotJson (lit "Expecting value") |}.

(** ** Further observations: the lines of the report *)

Definition heading_line : event :=
  EvPrint (128202%N :: lit " Full label data:").

Definition dump_line (rt : Runtime) (labels : json) : event :=
  EvPrint (json_dumps rt labels).

Definition found_line (n : nat) : event :=
  EvPrint (9888%N :: 65039%N :: lit "  Found " ++ dec (Z.of_nat n)
           ++ lit " label(s):").

Definition usage_last_line : event :=
  EvPrint (lit "  BLUESKY_APP_PASSWORD - Your app password").

Definition is_object (v : json) : bool :=
  match v with
  | JObj _ => true
  | _ => false
  end.

(** [label.get(name, 'unknown')] for a label that is an object. *)
Definition label_member (label : json) (name : str) : json :=
  match label with
  | JObj d =>
      match dict_get d name with
      | Some v => v
      | None => JStr (lit "unknown")
      end
  | _ => JStr (lit "unknown")
  end.

(** The line of line 165 for a label. *)
Definition label_line (rt : Runtime) (label : json) : event :=
  EvPrint (lit "  " ++ 8226%N :: lit " "
           ++ to_str rt (label_member label (lit "val")) ++ lit " (from: "
           ++ to_str rt (label_member label (lit "src")) ++ lit ")").

(** A network that serves a post with two labels. *)
Definition two_labels_network : World :=
  world_of canonical_arg no_env
    (serving (posts_doc [post_of "alice.example" "hello"
                           [(lit "labels", JArr [label "spam" "mod1";
                                                 label "nsfw" "mod2"])]])).

(** A network that serves a post whose second label is not an object. *)
Definition odd_label_network : World :=
  world_of canonical_arg no_env
    (serving (posts_doc [post_of "alice.example" "hello"
                           [(lit "labels",
                             JArr [label "spam" "mod1"; JStr (lit "nsfw");
                                   label "porn" "mod2"])]])).

(** A network that serves a document with no [posts] member. *)
Definition no_posts_member_network : World :=
  world_of canonical_arg no_env (serving (JObj [])).

(** A network that serves a list instead of an object. *)
Definition list_document_network : World :=
  world_of canonical_arg no_env (serving (JArr [])).

(** ** Further sample inputs *)

Definition unrecognized_arg : str := lit "not a recognized string".

(** A web URL of a profile, with no post in it. *)
Definition profile_only_arg : str :=
  lit "https://bsky.app/profile/alice.example".

(** An API URL with no [rkey] in its query. *)
Definition api_without_rkey_arg : str :=
  lit "https://bsky.social/xrpc/com.atproto.repo.getRecord?repo=did:plc:abc&collection=app.bsky.feed.post".

(** The response of [ok_reply]. *)
Definition ok_response (body : json) : response :=
  {| status_code := 200; reason := lit "OK"; resp_url := [];
     payload := Json body |}.

(** A network that wants a token for the post lookup, accepts the login,
    and still answers the second lookup with a 401. *)
Definition never_authorised_network : World :=
  world_of canonical_arg env_credentials
    (fun _ req =>
       if eqb (url req) CREATE_SESSION then ok_reply (session_doc "jwt-1")
       else status_reply 401 (lit "Unauthorized")).

(** The API URL of the examples. *)
Definition api_url_arg : str :=
  lit "https://bsky.social/xrpc/com.atproto.repo.getRecord?repo=did:plc:abc&collection=app.bsky.feed.post&rkey=xyz".

(** ** Further observations: what is displayed about the first post *)

(** How a run ends when the report of a document is started after the
    events [tr2]: the exit status and the whole log. *)
Definition reported (rt : Runtime) (data : json) (tr2 : trace) : Z * trace :=
  let (o3, tr3) := report rt data tr2 in settle rt o3 tr3.

(** A post object with its [labels] set to the empty list. *)
Definition with_empty_labels (d : list (str * json)) : json :=
  JObj ((lit "labels", JArr []) :: d).

(** Labels that lines 159-165 can display: a list of objects, or a value
    that Python counts as false. *)
Definition displayable (labels : json) : bool :=
  match labels with
  | JArr ls => forallb is_object ls
  | _ => negb (truthy labels)
  end.

(** The lines of lines 159-167 for the labels of a post: the count, an empty
    line and one line per label for a list that is not empty, the no-labels
    line otherwise. *)
Definition label_lines (rt : Runtime) (labels : json) : trace :=
  match labels with
  | JArr (l :: ls) =>
      [found_line (List.length (l :: ls)); EvPrint []] ++
      map (label_line rt) (l :: ls)
  | _ => [EvPrint (9989%N :: lit " No labels found")]
  end.

(** The line of line 155 for the text that is shown. *)
Definition text_line (shown : str) : event :=
  EvPrint (128221%N :: lit " Text: " ++ shown ++ lit "...").

(** A text of 120 code points. *)
Definition long_text : str := repeat 97%N 120.

(** A network that serves a post with a text of 120 code points. *)
Definition long_text_network : World :=
  world_of canonical_arg no_env
    (serving
       (posts_doc
          [JObj [(lit "author", JObj [(lit "handle", JStr (lit "alice.example"))]);
                 (lit "record", JObj [(lit "text", JStr long_text)])]])).

(** * Properties *)

(** ** Text *)

Lemma eqb_refl (s : str) : eqb s s = true.
Proof.
  induction s as [|c s IH]; simpl; [reflexivity|].
  now rewrite N.eqb_refl, IH.
Qed.

Lemma eqb_eq (a b : str) : eqb a b = true <-> a = b.
Proof.
  split; [|intros ->; apply eqb_refl].
  revert b; induction a as [|x a IH]; intros [|y b]; simpl;
    try discriminate; [reflexivity|].
  intros H; apply andb_true_iff in H as [Hx Hab].
  apply N.eqb_eq in Hx; f_equal; auto.
Qed.

(** A class run is never longer than it can be: what follows it, if
    anything, is outside the class. *)
Lemma span_spec (p : N -> bool) (s a b : str) :
  span p s = (a, b) ->
  s = a ++ b /\ forallb p a = true /\
  match b with [] => True | c :: _ => p c = false end.
Proof.
  revert a b; induction s as [|c s IH]; simpl; intros a b H.
  - inversion H; subst; auto.
  - destruct (p c) eqn:Hc.
    + destruct (span p s) as [a' b'] eqn:Hs; inversion H; subst.
      destruct (IH _ _ eq_refl) as (-> & Ha & Hb).
      simpl; rewrite Hc, Ha; auto.
    + inversion H; subst; simpl; auto.
Qed.

(** ** Traces *)

Lemma calls_to_app (u : str) (a b : trace) :
  calls_to u (a ++ b) = calls_to u a ++ calls_to u b.
Proof.
  induction a as [|e a IH]; simpl; [reflexivity|].
  destruct e; auto.
  destruct (eqb (url req) u); simpl; now rewrite IH.
Qed.

Lemma credential_events_app (a b : trace) :
  credential_events (a ++ b) = credential_events a ++ credential_events b.
Proof. apply filter_app. Qed.

Lemma error_lines_app (a b : trace) :
  error_lines (a ++ b) = error_lines a ++ error_lines b.
Proof. apply filter_app. Qed.

Lemma prints_no_calls (u : str) (ev : trace) :
  forallb is_print ev = true -> calls_to u ev = [].
Proof.
  induction ev as [|e ev IH]; simpl; [reflexivity|].
  destruct e; simpl; try discriminate; auto.
Qed.

Lemma prints_no_credentials (ev : trace) :
  forallb is_print ev = true -> credential_events ev = [].
Proof.
  induction ev as [|e ev IH]; simpl; [reflexivity|].
  destruct e; simpl; try discriminate; auto.
Qed.

(** ** Computations that only append to the log *)

Section Appends.
Variable q : event -> bool.

Lemma appends_ret {A} (a : A) : appends q (ret a).
Proof.
  intros tr o tr' H; inversion H; subst.
  exists []; now rewrite app_nil_r.
Qed.

Lemma appends_raise {A} (e : exn) : appends q (@raise A e).
Proof.
  intros tr o tr' H; inversion H; subst.
  exists []; now rewrite app_nil_r.
Qed.

Lemma appends_sys_exit {A} (c : Z) : appends q (@sys_exit A c).
Proof.
  intros tr o tr' H; inversion H; subst.
  exists []; now rewrite app_nil_r.
Qed.

Lemma appends_lift {A} (r : result A) : appends q (lift r).
Proof. destruct r; [apply appends_ret | apply appends_raise]. Qed.

Lemma appends_emit (e : event) : q e = true -> appends q (emit e).
Proof.
  intros He tr o tr' H; inversion H; subst.
  exists [e]; simpl; now rewrite He.
Qed.

Lemma appends_bind {A B} (m : M A) (k : A -> M B) :
  appends q m -> (forall a, appends q (k a)) -> appends q (bind m k).
Proof.
  intros Hm Hk tr o tr' H; unfold bind in H.
  destruct (m tr) as [[a|e|c] tr1] eqn:E;
    destruct (Hm _ _ _ E) as (ev1 & -> & H1).
  - destruct (Hk a _ _ _ H) as (ev2 & -> & H2).
    exists (ev1 ++ ev2); rewrite app_assoc, forallb_app, H1, H2; auto.
  - inversion H; subst; eauto.
  - inversion H; subst; eauto.
Qed.

Lemma appends_try {A} (m : M A) (h : exn -> M A) :
  appends q m -> (forall e, appends q (h e)) -> appends q (try_except m h).
Proof.
  intros Hm Hh tr o tr' H; unfold try_except in H.
  destruct (m tr) as [[a|e|c] tr1] eqn:E;
    destruct (Hm _ _ _ E) as (ev1 & -> & H1).
  - inversion H; subst; eauto.
  - destruct (Hh e _ _ _ H) as (ev2 & -> & H2).
    exists (ev1 ++ ev2); rewrite app_assoc, forallb_app, H1, H2; auto.
  - inversion H; subst; eauto.
Qed.

Lemma appends_for_each {A} (items : list A) (body : A -> M unit) :
  (forall x, appends q (body x)) -> appends q (for_each items body).
Proof.
  intros Hb; induction items as [|x items IH]; simpl.
  - apply appends_ret.
  - apply appends_bind; auto.
Qed.

Lemma appends_send (w : World) (req : request) :
  (forall rep, q (EvHttp req rep) = true) -> appends q (send w req).
Proof.
  intros Hq tr o tr' H; unfold send in H; inversion H; subst.
  eexists [_]; split; [reflexivity|]; simpl; now rewrite Hq.
Qed.

End Appends.

Ltac appends_step :=
  first
    [ apply appends_ret | apply appends_raise | apply appends_sys_exit
    | apply appends_lift
    | apply appends_emit; reflexivity
    | apply appends_send; intros; reflexivity
    | apply appends_for_each; intros
    | apply appends_bind; [|intros]
    | apply appends_try; [|intros]
    | match goal with
      | |- appends _ (if ?c then _ else _) => destruct c
      | |- appends _ (match ?x with _ => _ end) => destruct x
      end ].

(** ** What each part of the script adds to the log *)

Lemma parse_input_appends rt w (input_str : str) :
  appends resolver_event (parse_input rt w input_str).
Proof. unfold parse_input, requests_get; repeat appends_step. Qed.

Lemma show_label_appends rt (l : json) : appends is_print (show_label rt l).
Proof. unfold show_label; repeat appends_step. Qed.

(** [report] only prints. *)
Lemma report_appends rt (data : json) : appends is_print (report rt data).
Proof.
  unfold report; repeat appends_step; apply show_label_appends.
Qed.

Lemma resolver_events_quiet (ev : trace) :
  forallb resolver_event ev = true ->
  calls_to GET_POSTS ev = [] /\ calls_to CREATE_SESSION ev = [] /\
  credential_events ev = [] /\ error_lines ev = [].
Proof.
  induction ev as [|e ev IH]; simpl; [auto|].
  intros H; apply andb_true_iff in H as [He Hev].
  destruct (IH Hev) as (H1 & H2 & H3 & H4).
  destruct e; simpl in *; try discriminate.
  - unfold error_lines; simpl.
    apply negb_true_iff in He; rewrite He; auto.
  - apply eqb_eq in He; rewrite He.
    replace (eqb RESOLVE_HANDLE GET_POSTS) with false by reflexivity.
    replace (eqb RESOLVE_HANDLE CREATE_SESSION) with false by reflexivity.
    auto.
Qed.

Lemma unauthorized_raises (r : response) :
  status_code r = 401%Z ->
  exists msg, raise_for_status r = Err (HTTPError 401 msg).
Proof. intros H; unfold raise_for_status; rewrite H; simpl; eauto. Qed.

Lemma raise_for_status_code (r : response) (c : Z) (msg : str) :
  raise_for_status r = Err (HTTPError c msg) -> c = status_code r.
Proof.
  unfold raise_for_status.
  repeat match goal with
         | |- context [if ?b then _ else _] => destruct b
         end; intros H; inversion H; reflexivity.
Qed.

(** ** Running the primitives *)

Lemma bind_print {B} (line : str) (k : unit -> M B) (tr : trace) :
  bind (print line) k tr = k tt (tr ++ [EvPrint line]).
Proof. reflexivity. Qed.

Lemma bind_lift {B A} (r : result A) (k : A -> M B) (tr : trace) :
  bind (lift r) k tr =
  match r with
  | Ok a => k a tr
  | Err e => (Exc e, tr)
  end.
Proof. destruct r; reflexivity. Qed.

Lemma lift_run {A} (r : result A) (tr : trace) :
  lift r tr = (outcome_of r, tr).
Proof. destruct r; reflexivity. Qed.

Lemma bind_environ_get {B} w (name : str) (k : option str -> M B) tr :
  bind (environ_get w name) k tr =
  k (environ w name) (tr ++ [EvEnv name (environ w name)]).
Proof. reflexivity. Qed.

Lemma bind_input {B} w (prompt : str) (k : str -> M B) tr :
  bind (input w prompt) k tr =
  match stdin_line w tr prompt with
  | Ok s => k s (tr ++ [EvInput prompt (Ok s)])
  | Err e => (Exc e, tr ++ [EvInput prompt (Err e)])
  end.
Proof. unfold bind, input; destruct (stdin_line w tr prompt); reflexivity. Qed.

Lemma bind_getpass {B} w (prompt : str) (k : str -> M B) tr :
  bind (getpass w prompt) k tr =
  match tty_secret w tr prompt with
  | Ok s => k s (tr ++ [EvGetpass prompt (Ok s)])
  | Err e => (Exc e, tr ++ [EvGetpass prompt (Err e)])
  end.
Proof.
  unfold bind, getpass; destruct (tty_secret w tr prompt); reflexivity.
Qed.

(** [get_post] makes one call and decodes its reply. *)
Lemma get_post_run rt w (at_uri : str) (token : json) (tr : trace) :
  let req := lookup_request at_uri (auth_headers rt token) in
  let rep := http w tr req in
  get_post rt w at_uri token tr =
  (outcome_of (lookup_result rep), tr ++ [EvHttp req rep]).
Proof.
  unfold get_post, requests_get, send, bind, lookup_request; simpl.
  destruct (http w tr _) as [r|msg]; simpl; [|reflexivity].
  rewrite lift_run.
  destruct (raise_for_status r) as [[]|e]; simpl; [|reflexivity].
  now rewrite lift_run.
Qed.

(** [create_session] makes one call and decodes its reply. *)
Lemma create_session_run w (handle password : str) (tr : trace) :
  let req := login_request handle password in
  let rep := http w tr req in
  create_session w handle password tr =
  (outcome_of (session_token rep), tr ++ [EvHttp req rep]).
Proof.
  unfold create_session, requests_post, send, bind, login_request; simpl.
  destruct (http w tr _) as [r|msg]; simpl; [|reflexivity].
  rewrite lift_run.
  destruct (raise_for_status r) as [[]|e]; simpl; [|reflexivity].
  rewrite lift_run.
  destruct (resp_json r) as [b|e]; simpl; [|reflexivity].
  now rewrite lift_run.
Qed.

(** Evaluate the comparisons of closed text that a goal contains. *)
Ltac eval_closed_tests :=
  repeat match goal with
    | |- context [eqb ?a ?b] =>
        let v := eval vm_compute in (eqb a b) in
        match v with true => idtac | false => idtac end;
        change (eqb a b) with v
    | |- context [startswith ?a ?b] =>
        let v := eval vm_compute in (startswith a b) in
        match v with true => idtac | false => idtac end;
        change (startswith a b) with v
    end.

(** Read the observations off an explicit list of events. *)
Ltac read_trace :=
  repeat rewrite <- app_assoc;
  repeat (cbn [calls_to credential_events error_lines filter is_credential
                 is_error_line url lookup_request login_request app];
          eval_closed_tests).

Lemma lookup_http_error (rep : reply) (c : Z) (msg : str) :
  lookup_result rep = Err (HTTPError c msg) ->
  exists r, rep = Response r /\ status_code r = c.
Proof.
  destruct rep as [r|m]; simpl; [|discriminate].
  destruct (raise_for_status r) as [[]|e] eqn:E; simpl.
  - unfold resp_json; destruct (payload r); discriminate.
  - intros H; inversion H; subst e.
    apply raise_for_status_code in E; eauto.
Qed.

Lemma unauthorized_lookup (rep : reply) :
  unauthorized rep = true ->
  exists r msg, rep = Response r /\ status_code r = 401%Z /\
                lookup_result rep = Err (HTTPError 401 msg).
Proof.
  destruct rep as [r|m]; simpl; [|discriminate].
  intros H; apply Z.eqb_eq in H.
  destruct (unauthorized_raises r H) as [msg Hm].
  exists r, msg; rewrite Hm; auto.
Qed.

Lemma bind_ret {A B} (a : A) (k : A -> M B) (tr : trace) :
  bind (ret a) k tr = k a tr.
Proof. reflexivity. Qed.

Lemma bind_create_session {B} w (handle password : str) (k : json -> M B) tr :
  let req := login_request handle password in
  let rep := http w tr req in
  bind (create_session w handle password) k tr =
  match session_token rep with
  | Ok token => k token (tr ++ [EvHttp req rep])
  | Err e => (Exc e, tr ++ [EvHttp req rep])
  end.
Proof.
  intros req rep; unfold bind; rewrite create_session_run.
  fold req; fold rep; destruct (session_token rep); reflexivity.
Qed.

(** Close a branch of [fetch] whose events are all known. *)
Ltac fetch_leaf :=
  let H := fresh in
  intros H; inversion H; subst; clear H;
  eexists; split; [rewrite <- ?app_assoc; reflexivity|];
  read_trace; repeat split;
  try (econstructor; first [eassumption | reflexivity]).

Lemma fetch_summary rt w (at_uri : str) (tr tr' : trace) (o : outcome json) :
  fetch rt w at_uri tr = (o, tr') ->
  exists ev,
    tr' = tr ++ ev /\ error_lines ev = [] /\
    calls_to RESOLVE_HANDLE ev = [] /\
    fetched rt at_uri o (calls_to GET_POSTS ev) (calls_to CREATE_SESSION ev)
      (credential_events ev).
Proof.
  unfold fetch; rewrite bind_print; unfold try_except.
  rewrite get_post_run.
  change (auth_headers rt JNull) with (@nil (str * str)).
  generalize (http w (tr ++ [EvPrint (128275%N :: lit " Attempting unauthenticated request...")])
                (lookup_request at_uri [])) as rep0.
  intros rep0.
  destruct (unauthorized rep0) eqn:U.
  - (* the 401 path *)
    destruct (unauthorized_lookup _ U) as (r0 & msg & -> & H401 & E0).
    rewrite E0; cbn [outcome_of]; cbn beta iota.
    change (401 =? 401)%Z with true; cbn beta iota.
    rewrite bind_print, bind_environ_get.
    destruct (present (environ w (lit "BLUESKY_HANDLE")));
      [rewrite bind_ret | rewrite bind_input;
        match goal with |- context [stdin_line ?a ?b ?c] =>
          destruct (stdin_line a b c) end; [|fetch_leaf]];
      rewrite bind_environ_get;
      (destruct (present (environ w (lit "BLUESKY_APP_PASSWORD")));
       [rewrite bind_ret | rewrite bind_getpass;
         match goal with |- context [tty_secret ?a ?b ?c] =>
           destruct (tty_secret a b c) end; [|fetch_leaf]]);
      rewrite bind_create_session;
      match goal with |- context [session_token ?x] =>
        generalize x; intros lrep; destruct (session_token lrep) eqn:EL
      end;
      try fetch_leaf;
      rewrite !bind_print, get_post_run;
      match goal with |- context [lookup_result ?x] =>
        generalize x; intros rep1
      end;
      fetch_leaf.
  - (* any other reply *)
    assert (D : fetched rt at_uri (outcome_of (lookup_result rep0))
                  [(lookup_request at_uri [], rep0)] [] [])
      by (now constructor).
    destruct (lookup_result rep0) as [data|e] eqn:E0; cbn [outcome_of] in *.
    + fetch_leaf; assumption.
    + destruct e; try (unfold raise; fetch_leaf; assumption).
      destruct (Z.eqb_spec status 401) as [->|Hne].
      * destruct (lookup_http_error _ E0) as (r & -> & Hr).
        simpl in U; rewrite Hr in U; discriminate.
      * unfold raise; fetch_leaf; assumption.
Qed.

(** ** Computations that never call [sys.exit] *)

Lemma never_exits_ret {A} (a : A) : never_exits (ret a).
Proof. intros tr c tr'; discriminate. Qed.

Lemma never_exits_raise {A} (e : exn) : never_exits (@raise A e).
Proof. intros tr c tr'; discriminate. Qed.

Lemma never_exits_lift {A} (r : result A) : never_exits (lift r).
Proof. destruct r; intros tr c tr'; discriminate. Qed.

Lemma never_exits_emit (e : event) : never_exits (emit e).
Proof. intros tr c tr'; discriminate. Qed.

Lemma never_exits_send w (req : request) : never_exits (send w req).
Proof.
  intros tr c tr'; unfold send; destruct (http w tr req); discriminate.
Qed.

Lemma never_exits_bind {A B} (m : M A) (k : A -> M B) :
  never_exits m -> (forall a, never_exits (k a)) -> never_exits (bind m k).
Proof.
  intros Hm Hk tr c tr'; unfold bind.
  destruct (m tr) as [[a|e|c0] tr1] eqn:E.
  - apply Hk.
  - discriminate.
  - now apply Hm in E.
Qed.

Lemma parse_input_never_exits rt w (input_str : str) (tr tr' : trace) (c : Z) :
  parse_input rt w input_str tr = (SysExit c, tr') -> False.
Proof.
  revert tr c tr'; change (never_exits (parse_input rt w input_str)).
  unfold parse_input, requests_get, print.
  repeat first
    [ apply never_exits_ret | apply never_exits_raise | apply never_exits_lift
    | apply never_exits_emit | apply never_exits_send
    | apply never_exits_bind; [|intros]
    | match goal with
      | |- never_exits (if ?c then _ else _) => destruct c
      | |- never_exits (match ?x with _ => _ end) => destruct x
      end ].
Qed.

(** ** The anatomy of a run *)

Lemma run_eq rt w :
  (2 <= List.length (argv w))%nat ->
  run rt w =
  match parse_input rt w (nth 1 (argv w) []) [] with
  | (Ret at_uri, tr1) =>
      match fetch rt w at_uri ((tr1 ++ [checking_line at_uri]) ++ [EvPrint []])
      with
      | (Ret data, tr2) =>
          let (o3, tr3) := report rt data tr2 in settle rt o3 tr3
      | (Exc e, tr2) => settle rt (@Exc unit e) tr2
      | (SysExit c, tr2) => settle rt (@SysExit unit c) tr2
      end
  | (Exc e, tr1) => settle rt (@Exc unit e) tr1
  | (SysExit c, tr1) => settle rt (@SysExit unit c) tr1
  end.
Proof.
  intros Hargs; unfold run, main.
  apply Nat.ltb_ge in Hargs; rewrite Hargs.
  unfold try_except, bind at 1.
  destruct (parse_input rt w (nth 1 (argv w) []) []) as [[at_uri|e|c] tr1];
    try reflexivity.
  rewrite !bind_print; unfold bind.
  destruct (fetch rt w at_uri _) as [[data|e|c] tr2]; try reflexivity.
  destruct (report rt data tr2) as [[[]|e|c] tr3]; reflexivity.
Qed.

Lemma usage_run rt w :
  (List.length (argv w) < 2)%nat ->
  exists tr, run rt w = (1%Z, tr) /\ forallb is_print tr = true.
Proof.
  intros Hargs; unfold run, main.
  apply Nat.ltb_lt in Hargs; rewrite Hargs.
  unfold usage, bind, print, emit, sys_exit; cbn [app].
  eexists; split; [reflexivity|]; reflexivity.
Qed.

Lemma fetched_no_exit rt at_uri c lookups logins cs :
  ~ fetched rt at_uri (SysExit c) lookups logins cs.
Proof.
  intros H; inversion H;
    match goal with
    | E : outcome_of ?r = SysExit _ |- _ => destruct r; discriminate
    end.
Qed.

(** A fetch returns a document exactly when its last post-lookup call
    delivered one. *)
Lemma fetched_last rt at_uri o lookups logins cs req rep data :
  fetched rt at_uri o lookups logins cs ->
  last_call lookups = Some (req, rep) ->
  lookup_result rep = Ok data ->
  o = Ret data.
Proof.
  intros F L R; inversion F; subst; unfold last_call in L; simpl in L;
    inversion L; subst;
    try (rewrite R; reflexivity);
    simpl in R;
    match goal with
    | H : status_code ?r = 401%Z |- _ =>
        destruct (unauthorized_raises r H) as [m Hm];
        rewrite Hm in R; discriminate
    end.
Qed.

(** Either a run never reaches the fetch, and then makes no post-lookup or
    login call and touches no credential, or it has the calls of one fetch,
    after which it reports the document or the exception. *)
Lemma run_anatomy rt w (code : Z) (tr : trace) :
  run rt w = (code, tr) ->
  (code = 1%Z /\ calls_to GET_POSTS tr = [] /\ calls_to CREATE_SESSION tr = [] /\
   credential_events tr = []) \/
  exists at_uri o2 tr2,
    fetched rt at_uri o2 (calls_to GET_POSTS tr2) (calls_to CREATE_SESSION tr2)
      (credential_events tr2) /\
    error_lines tr2 = [] /\
    match o2 with
    | Ret data =>
        exists o3 tr3, report rt data tr2 = (o3, tr3) /\
                       settle rt o3 tr3 = (code, tr)
    | Exc e => settle rt (@Exc unit e) tr2 = (code, tr)
    | SysExit _ => False
    end.
Proof.
  intros R.
  destruct (Nat.lt_ge_cases (List.length (argv w)) 2) as [Hargs|Hargs].
  { destruct (usage_run rt w Hargs) as (tr0 & R0 & P0).
    rewrite R0 in R; inversion R; subst.
    left; repeat split;
      auto using prints_no_calls, prints_no_credentials. }
  rewrite (run_eq rt w Hargs) in R.
  destruct (parse_input _ _ _ _) as [o1 tr1] eqn:E1.
  destruct (parse_input_appends _ _ _ _ E1) as (ev1 & Heq1 & Q1).
  simpl in Heq1; subst tr1.
  destruct (resolver_events_quiet _ Q1) as (G1 & S1 & C1 & L1).
  destruct o1 as [at_uri|e|c].
  - destruct (fetch _ _ _ _) as [o2 tr2] eqn:E2.
    destruct (fetch_summary _ _ _ _ E2) as (ev2 & Heq2 & L2 & _ & F2).
    right; exists at_uri, o2, tr2; subst tr2; split; [|split].
    + rewrite !calls_to_app, !credential_events_app, G1, S1, C1.
      simpl; exact F2.
    + rewrite !error_lines_app, L1, L2; reflexivity.
    + destruct o2 as [data|e|c].
      * destruct (report rt data _) as [o3 tr3] eqn:E3; eauto.
      * exact R.
      * eapply fetched_no_exit; eauto.
  - left; simpl in R; inversion R; subst.
    rewrite !calls_to_app, credential_events_app, G1, S1, C1; auto.
  - left.
    exfalso; exact (parse_input_never_exits _ _ _ _ E1).
Qed.

Lemma settle_keeps {A} rt (o : outcome A) (tr tr' : trace) (code : Z) :
  settle rt o tr = (code, tr') ->
  exists tail, tr' = tr ++ tail /\ forallb is_print tail = true.
Proof.
  destruct o; simpl; intros H; inversion H; subst.
  - exists []; now rewrite app_nil_r.
  - now exists [error_line rt e].
  - exists []; now rewrite app_nil_r.
Qed.

Lemma prompt_failed_credentials (tr : trace) :
  prompt_failed (credential_events tr) = prompt_failed tr.
Proof.
  induction tr as [|e tr IH]; simpl; [reflexivity|].
  destruct e as [l|n v|p [a|x]|p [a|x]|req rep]; simpl; auto.
Qed.

(** The calls and credential events of a whole run are those of its fetch,
    if it has one; a fetch that raises makes the run exit with status 1. *)
Lemma run_calls rt w (code : Z) (tr : trace) :
  run rt w = (code, tr) ->
  (code = 1%Z /\ calls_to GET_POSTS tr = [] /\ calls_to CREATE_SESSION tr = [] /\
   credential_events tr = []) \/
  exists at_uri o2,
    fetched rt at_uri o2 (calls_to GET_POSTS tr) (calls_to CREATE_SESSION tr)
      (credential_events tr) /\
    (forall e, o2 = Exc e -> code = 1%Z).
Proof.
  intros R; destruct (run_anatomy _ _ R) as [H|(at_uri & o2 & tr2 & F & _ & H)];
    [now left|right].
  exists at_uri, o2.
  assert (K : exists tail, tr = tr2 ++ tail /\ forallb is_print tail = true /\
                           (forall e, o2 = Exc e -> code = 1%Z)).
  { destruct o2 as [data|e|c]; [|  |contradiction].
    - destruct H as (o3 & tr3 & E3 & S3).
      destruct (report_appends _ _ _ E3) as (ev3 & -> & P3).
      destruct (settle_keeps _ _ _ S3) as (tail & -> & Pt).
      exists (ev3 ++ tail); rewrite app_assoc, forallb_app, P3, Pt.
      repeat split; discriminate.
    - destruct (settle_keeps _ _ _ H) as (tail & -> & Pt).
      exists tail; repeat split; auto.
      simpl in H; inversion H; reflexivity. }
  destruct K as (tail & -> & Pt & Hc); split; [|exact Hc].
  rewrite !calls_to_app, credential_events_app.
  rewrite !(prints_no_calls _ _ Pt), (prints_no_credentials _ Pt), !app_nil_r.
  exact F.
Qed.

(** ** The paths of a fetch *)

(** A run with an argument resolves it; if that succeeds it prints two lines
    and fetches; if that succeeds it reports.  The first exception, or the
    exit of the report, settles the run. *)
Lemma run_cases rt w (code : Z) (tr : trace) :
  (2 <= List.length (argv w))%nat ->
  run rt w = (code, tr) ->
  exists o1 ev1,
    parse_input rt w (nth 1 (argv w) []) [] = (o1, ev1) /\
    match o1 with
    | Ret at_uri =>
        exists o2 tr2,
          fetch rt w at_uri ((ev1 ++ [checking_line at_uri]) ++ [EvPrint []])
          = (o2, tr2) /\
          match o2 with
          | Ret data =>
              exists o3 tr3, report rt data tr2 = (o3, tr3) /\
                             settle rt o3 tr3 = (code, tr)
          | Exc e => settle rt (@Exc unit e) tr2 = (code, tr)
          | SysExit _ => False
          end
    | Exc e => settle rt (@Exc unit e) ev1 = (code, tr)
    | SysExit _ => False
    end.
Proof.
  intros Hargs R; rewrite (run_eq rt w Hargs) in R.
  destruct (parse_input _ _ _ _) as [o1 ev1] eqn:E1.
  exists o1, ev1; split; [reflexivity|].
  destruct o1 as [at_uri|e|c]; [|exact R|].
  - destruct (fetch _ _ _ _) as [o2 tr2] eqn:E2.
    exists o2, tr2; split; [reflexivity|].
    destruct o2 as [data|e|c]; [|exact R|].
    + destruct (report rt data tr2) as [o3 tr3] eqn:E3; eauto.
    + destruct (fetch_summary _ _ _ _ E2) as (ev2 & _ & _ & _ & F).
      eapply fetched_no_exit; eauto.
  - exact (parse_input_never_exits _ _ _ _ E1).
Qed.

(** Close a branch of [fetch] with the path it has followed. *)
Ltac path_leaf c :=
  let H := fresh in
  intros H; injection H as <- <-;
  eexists; split;
  [ eapply c; eassumption
  | rewrite <- ?app_assoc; reflexivity ].

(** [fetch] follows one of the five paths. *)
Lemma fetch_follows_path rt w (at_uri : str) (tr tr' : trace)
    (o : outcome json) :
  fetch rt w at_uri tr = (o, tr') ->
  exists ev, fetch_path rt w at_uri o ev /\ tr' = tr ++ ev.
Proof.
  unfold fetch; rewrite bind_print; unfold try_except.
  rewrite get_post_run.
  change (auth_headers rt JNull) with (@nil (str * str)).
  fold attempt_line.
  generalize (http w (tr ++ [attempt_line]) (lookup_request at_uri []))
    as rep0.
  intros rep0.
  destruct (unauthorized rep0) eqn:U.
  - destruct (unauthorized_lookup _ U) as (r0 & msg & -> & H401 & E0).
    rewrite E0; cbn [outcome_of]; cbn beta iota.
    change (401 =? 401)%Z with true; cbn beta iota.
    rewrite bind_print, bind_environ_get; fold login_line.
    destruct (present (environ w (lit "BLUESKY_HANDLE"))) eqn:PH;
      [ destruct (environ w (lit "BLUESKY_HANDLE")) as [h|] eqn:EH;
          [|discriminate PH];
        pose proof (handle_from_env w EH PH) as AH;
        rewrite bind_ret; cbn [text_of]
      | rewrite bind_input;
        match goal with
        | |- context [stdin_line ?a ?b ?c] =>
            generalize (stdin_line a b c); intros [h|e]
        end;
        [ pose proof (handle_from_prompt w (Ok h) PH) as AH
        | pose proof (handle_from_prompt w (Err e) PH) as AH;
          path_leaf path_no_handle ] ];
      rewrite bind_environ_get;
      (destruct (present (environ w (lit "BLUESKY_APP_PASSWORD"))) eqn:PP;
       [ destruct (environ w (lit "BLUESKY_APP_PASSWORD")) as [p|] eqn:EP;
           [|discriminate PP];
         pose proof (password_from_env w EP PP) as AP;
         rewrite bind_ret; cbn [text_of]
       | rewrite bind_getpass;
         match goal with
         | |- context [tty_secret ?a ?b ?c] =>
             generalize (tty_secret a b c); intros [p|e]
         end;
         [ pose proof (password_from_prompt w (Ok p) PP) as AP
         | pose proof (password_from_prompt w (Err e) PP) as AP;
           path_leaf path_no_password ] ]);
      rewrite bind_create_session;
      match goal with
      | |- context [session_token ?x] =>
          generalize x; intros lrep; destruct (session_token lrep) eqn:EL
      end;
      try (path_leaf path_login_failed);
      rewrite !bind_print, get_post_run;
      match goal with
      | |- context [lookup_result ?x] => generalize x; intros rep1
      end;
      fold login_ok_line;
      path_leaf path_retried.
  - assert (D : fetch_path rt w at_uri (outcome_of (lookup_result rep0))
                  [attempt_line; EvHttp (lookup_request at_uri []) rep0])
      by (now constructor).
    assert (K : forall e, lookup_result rep0 = Err e ->
                match e with
                | HTTPError status _ => (status =? 401)%Z = false
                | _ => True
                end).
    { intros e E0; destruct e; auto.
      destruct (lookup_http_error _ E0) as (r & -> & <-); exact U. }
    destruct (lookup_result rep0) as [data|e] eqn:E0; cbn [outcome_of] in *.
    + intros H; injection H as <- <-; eexists; split; [exact D|].
      rewrite <- ?app_assoc; reflexivity.
    + specialize (K e eq_refl).
      destruct e; try rewrite K; unfold raise;
        (intros H; injection H as <- <-; eexists; split; [exact D|];
         rewrite <- ?app_assoc; reflexivity).
Qed.

(** Take a path of the fetch apart, down to where each credential came
    from. *)
Ltac invert_path P :=
  inversion P; subst;
  repeat match goal with
    | H : asked_handle _ _ _ |- _ => inversion H; subst; clear H
    | H : asked_password _ _ _ |- _ => inversion H; subst; clear H
    end.

(** Read the observations off the explicit events of a path. *)
Ltac read_path :=
  repeat rewrite <- app_assoc;
  repeat (cbn [calls_to credential_events error_lines filter is_credential
                 is_error_line is_prompt url lookup_request login_request app
                 attempt_line login_line login_ok_line];
          eval_closed_tests).

Lemma asked_handle_calls w (a : result str) (ev : trace) (u : str) :
  asked_handle w a ev -> calls_to u ev = [].
Proof. intros H; inversion H; reflexivity. Qed.

Lemma asked_password_calls w (a : result str) (ev : trace) (u : str) :
  asked_password w a ev -> calls_to u ev = [].
Proof. intros H; inversion H; reflexivity. Qed.

(** A fetch whose last post lookup delivered a document returns that
    document, and the call is the last thing it did. *)
Lemma fetch_path_last rt w (at_uri : str) (o : outcome json) (ev : trace)
    (req : request) (rep : reply) (data : json) :
  fetch_path rt w at_uri o ev ->
  last_call (calls_to GET_POSTS ev) = Some (req, rep) ->
  lookup_result rep = Ok data ->
  o = Ret data /\ exists ev0, ev = ev0 ++ [EvHttp req rep].
Proof.
  intros P L D; inversion P; subst;
    repeat match goal with
      | H : asked_handle _ _ _ |- _ =>
          pose proof (asked_handle_calls GET_POSTS H); clear H
      | H : asked_password _ _ _ |- _ =>
          pose proof (asked_password_calls GET_POSTS H); clear H
      end;
    revert L; rewrite ?calls_to_app;
    repeat match goal with
      | H : calls_to _ _ = [] |- _ => rewrite H; clear H
      end;
    read_path; unfold last_call; simpl; intros L; injection L as <- <-;
    try (exfalso;
         match goal with
         | H : status_code ?r = 401%Z |- _ =>
             destruct (unauthorized_raises r H) as [m Hm];
             simpl in D; rewrite Hm in D; discriminate D
         end);
    rewrite D; (split; [reflexivity|]).
  - now exists [attempt_line].
  - exists (attempt_line :: EvHttp (lookup_request at_uri []) (Response r0)
            :: login_line :: evh ++ evp ++
            [EvHttp (login_request handle password) lrep; login_ok_line;
             EvPrint []]).
    cbn [app]; rewrite <- !app_assoc; reflexivity.
Qed.

(** When the last post lookup of a run delivered a document, that call is
    followed by the report of the document and by nothing else: the run ends
    as [report] ends, started right after the call. *)
Lemma run_after_lookup rt w (code : Z) (tr : trace) (req : request)
    (rep : reply) (data : json) :
  run rt w = (code, tr) ->
  last_call (calls_to GET_POSTS tr) = Some (req, rep) ->
  lookup_result rep = Ok data ->
  exists tr1 o3 tr3,
    report rt data (tr1 ++ [EvHttp req rep]) = (o3, tr3) /\
    settle rt o3 tr3 = (code, tr).
Proof.
  intros R L D.
  destruct (Nat.lt_ge_cases (List.length (argv w)) 2) as [Hargs|Hargs].
  { destruct (usage_run rt w Hargs) as (tr0 & R0 & P0).
    rewrite R0 in R; injection R as _ <-.
    rewrite (prints_no_calls _ _ P0) in L; discriminate L. }
  destruct (run_cases _ _ Hargs R) as (o1 & ev1 & E1 & H).
  destruct (parse_input_appends _ _ _ _ E1) as (ev & Heq & Q).
  simpl in Heq; subst ev.
  destruct (resolver_events_quiet _ Q) as (G1 & _).
  destruct o1 as [at_uri|e|c]; [| |contradiction].
  - destruct H as (o2 & tr2 & E2 & H).
    destruct (fetch_follows_path _ _ _ _ E2) as (ev2 & P & ->).
    assert (K : calls_to GET_POSTS tr = calls_to GET_POSTS ev2).
    { destruct o2 as [data'|e|c]; [| |contradiction].
      - destruct H as (o3 & tr3 & E3 & S3).
        destruct (report_appends _ _ _ E3) as (ev3 & -> & P3).
        destruct (settle_keeps _ _ _ S3) as (tail & -> & Pt).
        rewrite !calls_to_app, G1, (prints_no_calls _ _ P3),
          (prints_no_calls _ _ Pt).
        cbn [calls_to checking_line app]; now rewrite !app_nil_r.
      - destruct (settle_keeps _ _ _ H) as (tail & -> & Pt).
        rewrite !calls_to_app, G1, (prints_no_calls _ _ Pt).
        cbn [calls_to checking_line app]; now rewrite !app_nil_r. }
    rewrite K in L.
    destruct (fetch_path_last P L D) as (-> & ev0 & ->).
    destruct H as (o3 & tr3 & E3 & S3).
    exists (((ev1 ++ [checking_line at_uri]) ++ [EvPrint []]) ++ ev0), o3, tr3.
    rewrite <- app_assoc; split; assumption.
  - cbn [settle] in H; injection H as _ <-.
    rewrite calls_to_app, G1 in L.
    cbn [calls_to error_line app] in L; discriminate L.
Qed.

(** ** The fetch flow *)

Lemma run_pair rt w : run rt w = (fst (run rt w), snd (run rt w)).
Proof. destruct (run rt w); reflexivity. Qed.

(** C1, refuted as worded: when the login is rejected there is a login call
    but no retried lookup. *)
Lemma retries_with_token_fails_when_login_rejected :
  ~ retries_with_token plain_runtime login_rejected.
Proof.
  unfold retries_with_token; intros H.
  set (tr := snd (run plain_runtime login_rejected)) in H.
  vm_compute in tr.
  specialize (H _ _ eq_refl eq_refl).
  destruct H as (lreq & lrep & token & retry & rep1 & _ & _ & H & _).
  vm_compute in H; discriminate H.
Qed.

(** C1, amended.  After a 401 on the unauthenticated lookup, either a prompt
    for a credential fails, and then there is no login call and no retried
    lookup, and the run exits with status 1; or there is exactly one login
    call.  When that login fails there is no retried lookup and the run
    exits with status 1.  When it returns a token there is exactly one
    retried lookup, for the same reference, whatever the token is: it carries
    [Authorization: Bearer <token>] when the token is not empty, and no
    header when it is; and when the retried lookup fails too, nothing more
    is attempted and the run exits with status 1. *)
Theorem retry_once_after_401 rt w (code : Z) (tr : trace)
    (req0 : request) (r0 : response) :
  run rt w = (code, tr) ->
  hd_error (calls_to GET_POSTS tr) = Some (req0, Response r0) ->
  status_code r0 = 401%Z ->
  exists at_uri,
    req0 = lookup_request at_uri [] /\
    ((calls_to CREATE_SESSION tr = [] /\ prompt_failed tr = true /\
      calls_to GET_POSTS tr = [(req0, Response r0)] /\ code = 1%Z) \/
     exists handle password lrep,
       calls_to CREATE_SESSION tr = [(login_request handle password, lrep)] /\
       match session_token lrep with
       | Err _ => calls_to GET_POSTS tr = [(req0, Response r0)] /\ code = 1%Z
       | Ok token =>
           exists rep1,
             calls_to GET_POSTS tr =
               [(req0, Response r0);
                (lookup_request at_uri
                   (if truthy token then bearer rt token else []), rep1)] /\
             (forall e, lookup_result rep1 = Err e -> code = 1%Z)
       end).
Proof.
  intros R H0 H401.
  destruct (run_calls _ _ R) as [(_ & G & _)|(at_uri & o2 & F & Hc1)].
  { rewrite G in H0; discriminate. }
  rewrite <- (prompt_failed_credentials tr).
  exists at_uri.
  inversion F as [rep Hu Ho Hg Hs Hc
                 |r e cs Hr Hp Ho Hg Hs Hc
                 |r h p lrep e cs Hr Hl Ho Hg Hs Hc
                 |r h p lrep token rep1 cs Hr Hl Ho Hg Hs Hc];
    rewrite <- Hg in H0; simpl in H0; injection H0 as <- E0.
  - subst rep; simpl in Hu; rewrite H401 in Hu; discriminate.
  - subst r0; split; [reflexivity|left].
    repeat split; [exact Hp|]; eapply Hc1; eauto.
  - subst r0; split; [reflexivity|right].
    exists h, p, lrep; split; [reflexivity|].
    rewrite Hl; split; [reflexivity|]; eapply Hc1; eauto.
  - subst r0; split; [reflexivity|right].
    exists h, p, lrep; split; [reflexivity|].
    rewrite Hl; exists rep1; split.
    + unfold auth_headers, bearer; reflexivity.
    + intros e He; apply (Hc1 e); rewrite <- Ho, He; reflexivity.
Qed.

Lemma retry_once_after_401_witness :
  let tr := snd (run plain_runtime login_accepted) in
  exists req0 r0,
    hd_error (calls_to GET_POSTS tr) = Some (req0, Response r0) /\
    status_code r0 = 401%Z /\
    exists at_uri,
      req0 = lookup_request at_uri [] /\
      ((calls_to CREATE_SESSION tr = [] /\ prompt_failed tr = true /\
        calls_to GET_POSTS tr = [(req0, Response r0)] /\
        fst (run plain_runtime login_accepted) = 1%Z) \/
       exists handle password lrep,
         calls_to CREATE_SESSION tr =
           [(login_request handle password, lrep)] /\
         match session_token lrep with
         | Err _ =>
             calls_to GET_POSTS tr = [(req0, Response r0)] /\
             fst (run plain_runtime login_accepted) = 1%Z
         | Ok token =>
             exists rep1,
               calls_to GET_POSTS tr =
                 [(req0, Response r0);
                  (lookup_request at_uri
                     (if truthy token then bearer plain_runtime token
                      else []), rep1)] /\
               (forall e, lookup_result rep1 = Err e ->
                          fst (run plain_runtime login_accepted) = 1%Z)
         end).
Proof.
  intros tr.
  exists (lookup_request canonical_arg []),
    (status_response 401 (lit "Unauthorized")).
  assert (Ef : hd_error (calls_to GET_POSTS tr) =
               Some (lookup_request canonical_arg [],
                     Response (status_response 401 (lit "Unauthorized"))))
    by (vm_compute; reflexivity).
  split; [exact Ef|]; split; [reflexivity|].
  exact (@retry_once_after_401 plain_runtime login_accepted _ _ _ _
           (run_pair _ _) Ef eq_refl).
Defined.

(** C2.  When the first post lookup is not answered with a 401, the login
    endpoint is never called, and no credential is read from the environment
    or asked for. *)
Theorem no_login_without_401 rt w (code : Z) (tr : trace) :
  run rt w = (code, tr) ->
  (forall req r, hd_error (calls_to GET_POSTS tr) = Some (req, Response r) ->
                 status_code r <> 401%Z) ->
  calls_to CREATE_SESSION tr = [] /\ credential_events tr = [].
Proof.
  intros R Hno.
  destruct (run_calls _ _ R) as [(_ & _ & S & C)|(at_uri & o2 & F & _)];
    [now split|].
  inversion F as [rep Hu Ho Hg Hs Hc
                 |r e cs Hr Hp Ho Hg Hs Hc
                 |r h p lrep e cs Hr Hl Ho Hg Hs Hc
                 |r h p lrep token rep1 cs Hr Hl Ho Hg Hs Hc];
    try (exfalso; apply (Hno (lookup_request at_uri []) r); auto;
         rewrite <- Hg; reflexivity).
  now split.
Qed.

Lemma no_login_without_401_witness :
  let tr := snd (run plain_runtime open_network) in
  (forall req r, hd_error (calls_to GET_POSTS tr) = Some (req, Response r) ->
                 status_code r <> 401%Z) /\
  calls_to CREATE_SESSION tr = [] /\ credential_events tr = [].
Proof.
  assert (H : forall req r,
    hd_error (calls_to GET_POSTS (snd (run plain_runtime open_network))) =
      Some (req, Response r) -> status_code r <> 401%Z).
  { intros req r H; vm_compute in H; inversion H; subst; simpl; discriminate. }
  split; [exact H|].
  exact (@no_login_without_401 plain_runtime open_network _ _ (run_pair _ _) H).
Defined.

(** C3.  When the unauthenticated lookup is answered with a 401 and the login
    call fails, the process exits with status 1 and the first lookup is the
    only one. *)
Theorem login_failure_is_fatal rt w (code : Z) (tr : trace)
    (req0 lreq : request) (r0 : response) (lrep : reply) (e : exn) :
  run rt w = (code, tr) ->
  hd_error (calls_to GET_POSTS tr) = Some (req0, Response r0) ->
  status_code r0 = 401%Z ->
  In (lreq, lrep) (calls_to CREATE_SESSION tr) ->
  session_token lrep = Err e ->
  code = 1%Z /\ calls_to GET_POSTS tr = [(req0, Response r0)].
Proof.
  intros R H0 H401 Hin Hfail.
  destruct (run_calls _ _ R) as [(_ & _ & S & _)|(at_uri & o2 & F & Hc1)].
  { rewrite S in Hin; contradiction. }
  inversion F as [rep Hu Ho Hg Hs Hc
                 |r e' cs Hr Hp Ho Hg Hs Hc
                 |r h p lrep' e' cs Hr Hl Ho Hg Hs Hc
                 |r h p lrep' token rep1 cs Hr Hl Ho Hg Hs Hc];
    rewrite <- Hs in Hin; simpl in Hin; try contradiction;
    destruct Hin as [E|[]]; inversion E; subst lreq lrep'.
  - rewrite <- Hg in H0; try rewrite <- Hg; simpl in H0; inversion H0; subst.
    split; [eapply Hc1; eauto | reflexivity].
  - rewrite Hl in Hfail; discriminate.
Qed.

Lemma login_failure_is_fatal_witness :
  exists req0 r0 lreq lrep e,
    let tr := snd (run plain_runtime login_rejected) in
    hd_error (calls_to GET_POSTS tr) = Some (req0, Response r0) /\
    status_code r0 = 401%Z /\
    In (lreq, lrep) (calls_to CREATE_SESSION tr) /\
    session_token lrep = Err e /\
    fst (run plain_runtime login_rejected) = 1%Z /\
    calls_to GET_POSTS tr = [(req0, Response r0)].
Proof.
  pose (tr := snd (run plain_runtime login_rejected)).
  pose (first := hd_error (calls_to GET_POSTS tr)).
  pose (login := hd_error (calls_to CREATE_SESSION tr)).
  assert (Ef : hd_error (calls_to GET_POSTS tr) = first) by reflexivity.
  assert (El : hd_error (calls_to CREATE_SESSION tr) = login) by reflexivity.
  vm_compute in first, login.
  destruct first as [[req0 [r0|m]]|] eqn:E0; try discriminate E0.
  destruct login as [[lreq lrep]|] eqn:EL; try discriminate EL.
  inversion E0 as [[Hq Hr]]; inversion EL as [[Hlq Hlr]].
  assert (H401 : status_code r0 = 401%Z) by (rewrite <- Hr; reflexivity).
  assert (Hin : In (lreq, lrep) (calls_to CREATE_SESSION tr)).
  { destruct (calls_to CREATE_SESSION tr) as [|c cs]; [discriminate El|].
    simpl in El; inversion El; now left. }
  destruct (session_token lrep) as [t|e] eqn:Ee;
    [rewrite <- Hlr in Ee; vm_compute in Ee; discriminate Ee|].
  exists req0, r0, lreq, lrep, e; cbv zeta.
  destruct (@login_failure_is_fatal plain_runtime login_rejected _ _ _ _ _ _ _
              (run_pair _ _) Ef H401 Hin Ee) as [Hc Hl].
  repeat split; auto.
Defined.

(** ** From the fetched document to the end of the run *)

(** When the last post lookup of a run delivered a document, the run ends as
    [report] on that document ends, started after events that contain no
    line of the top-level handler. *)
Lemma run_report rt w (code : Z) (tr : trace) (req : request) (rep : reply)
    (data : json) :
  run rt w = (code, tr) ->
  last_call (calls_to GET_POSTS tr) = Some (req, rep) ->
  lookup_result rep = Ok data ->
  exists tr2 o3 tr3,
    error_lines tr2 = [] /\ report rt data tr2 = (o3, tr3) /\
    settle rt o3 tr3 = (code, tr).
Proof.
  intros R L D.
  destruct (run_anatomy _ _ R) as [(_ & G & _)|(at_uri & o2 & tr2 & F & E & H)].
  { rewrite G in L; discriminate. }
  assert (K : calls_to GET_POSTS tr = calls_to GET_POSTS tr2).
  { destruct o2 as [data'|e|c]; [|  |contradiction].
    - destruct H as (o3 & tr3 & E3 & S3).
      destruct (report_appends _ _ _ E3) as (ev3 & -> & P3).
      destruct (settle_keeps _ _ _ S3) as (tail & -> & Pt).
      rewrite !calls_to_app, (prints_no_calls _ _ P3), (prints_no_calls _ _ Pt).
      now rewrite !app_nil_r.
    - destruct (settle_keeps _ _ _ H) as (tail & -> & Pt).
      rewrite calls_to_app, (prints_no_calls _ _ Pt); now rewrite app_nil_r. }
  rewrite K in L.
  pose proof (fetched_last F L D) as Ho; subst o2.
  destruct H as (o3 & tr3 & E3 & S3); eauto 6.
Qed.

(** Lines 140-143. *)
Lemma report_not_found rt (data posts : json) (tr : trace) :
  get data (lit "posts") (JArr []) = Ok posts ->
  truthy posts = false ->
  report rt data tr = (SysExit 1, tr ++ [not_found_line]).
Proof.
  intros Hp Ht; unfold report.
  rewrite bind_lift, Hp, Ht; reflexivity.
Qed.

(** Lines 145-171 for a first post whose label list is empty or absent. *)
Lemma report_no_labels rt (data post author text : json) (rest : list json)
    (tr : trace) :
  get data (lit "posts") (JArr []) = Ok (JArr (post :: rest)) ->
  get post (lit "labels") (JArr []) = Ok (JArr []) ->
  author_of post = Ok author ->
  text_of_post post = Ok text ->
  report rt data tr =
  (Ret tt, (tr ++ post_lines rt author text) ++ no_labels_lines).
Proof.
  intros Hp Hl Ha Ht; unfold report.
  rewrite bind_lift, Hp; cbn [truthy negb].
  cbn [item0]; rewrite bind_lift, bind_lift, Hl, !bind_print.
  rewrite bind_lift, Ha, bind_lift, Ht, !bind_print.
  change (truthy (JArr [])) with false; cbv beta iota.
  rewrite !bind_print.
  unfold print, emit, no_labels_lines, post_lines.
  rewrite <- !app_assoc; reflexivity.
Qed.

(** A post without a [labels] member reads as one whose label list is
    empty. *)
Lemma labels_default (d : list (str * json)) :
  dict_get d (lit "labels") = None \/
  dict_get d (lit "labels") = Some (JArr []) ->
  get (JObj d) (lit "labels") (JArr []) = Ok (JArr []).
Proof. intros [H|H]; simpl; now rewrite H. Qed.

(** Lines 140-145: [report] reads the first post of the list and no other. *)
Lemma report_first_post rt (data post : json) (rest : list json) (tr : trace) :
  get data (lit "posts") (JArr []) = Ok (JArr (post :: rest)) ->
  report rt data tr = report rt (JObj [(lit "posts", JArr [post])]) tr.
Proof.
  intros Hp; unfold report.
  rewrite !bind_lift, Hp.
  change (get (JObj [(lit "posts", JArr [post])]) (lit "posts") (JArr []))
    with (Ok (JArr [post])).
  reflexivity.
Qed.

Lemma show_label_object rt (l : json) (tr : trace) :
  is_object l = true ->
  show_label rt l tr = (Ret tt, tr ++ [label_line rt l]).
Proof.
  destruct l; try discriminate; intros _.
  unfold show_label, label_line, label_member.
  rewrite !bind_lift; simpl get.
  destruct (dict_get d (lit "val")); destruct (dict_get d (lit "src"));
    reflexivity.
Qed.

Lemma show_label_other rt (l : json) (tr : trace) :
  is_object l = false ->
  show_label rt l tr = (Exc (AttributeError l (lit "get")), tr).
Proof.
  destruct l; try discriminate; intros _; reflexivity.
Qed.

(** The loop of lines 162-165 over labels that are all objects. *)
Lemma for_each_labels rt (ls : list json) (tr : trace) :
  forallb is_object ls = true ->
  for_each ls (show_label rt) tr = (Ret tt, tr ++ map (label_line rt) ls).
Proof.
  revert tr; induction ls as [|l ls IH]; intros tr H; simpl.
  - now rewrite app_nil_r.
  - apply andb_true_iff in H as [Hl Hls].
    unfold bind; rewrite (show_label_object rt _ tr Hl), (IH _ Hls).
    now rewrite <- app_assoc.
Qed.

(** The loop stops at the first label that is not an object. *)
Lemma for_each_odd_label rt (good more : list json) (odd : json) (tr : trace) :
  forallb is_object good = true ->
  is_object odd = false ->
  for_each (good ++ odd :: more) (show_label rt) tr =
  (Exc (AttributeError odd (lit "get")), tr ++ map (label_line rt) good).
Proof.
  revert tr; induction good as [|l good IH]; intros tr Hg Ho; simpl.
  - unfold bind; rewrite (show_label_other rt _ tr Ho).
    now rewrite app_nil_r.
  - apply andb_true_iff in Hg as [Hl Hg].
    unfold bind; rewrite (show_label_object rt _ tr Hl), (IH _ Hg Ho).
    now rewrite <- app_assoc.
Qed.

(** Lines 140-158 for a first post that can be displayed. *)
Lemma report_post rt (data post labels author text : json)
    (rest : list json) (tr : trace) :
  get data (lit "posts") (JArr []) = Ok (JArr (post :: rest)) ->
  get post (lit "labels") (JArr []) = Ok labels ->
  author_of post = Ok author ->
  text_of_post post = Ok text ->
  report rt data tr =
  ((if truthy labels then
      n <- lift (len labels) ;;
      print (9888%N :: 65039%N :: lit "  Found " ++ dec (Z.of_nat n)
             ++ lit " label(s):") ;;
      print [] ;;
      items <- lift (iter labels) ;;
      for_each items (show_label rt)
    else print (9989%N :: lit " No labels found")) ;;
   print [] ;;
   print (128202%N :: lit " Full label data:") ;;
   print (json_dumps rt labels)) (tr ++ post_lines rt author text).
Proof.
  intros Hp Hl Ha Ht; unfold report.
  rewrite bind_lift, Hp; cbn [truthy negb].
  cbn [item0]; rewrite bind_lift, bind_lift, Hl, !bind_print.
  rewrite bind_lift, Ha, bind_lift, Ht, !bind_print.
  unfold post_lines; rewrite <- !app_assoc; reflexivity.
Qed.

(** Lines 159-171 for a list of labels that are all objects. *)
Lemma report_labels rt (data post author text l : json)
    (rest ls : list json) (tr : trace) :
  get data (lit "posts") (JArr []) = Ok (JArr (post :: rest)) ->
  get post (lit "labels") (JArr []) = Ok (JArr (l :: ls)) ->
  author_of post = Ok author ->
  text_of_post post = Ok text ->
  forallb is_object (l :: ls) = true ->
  report rt data tr =
  (Ret tt,
   (tr ++ post_lines rt author text) ++
   [found_line (List.length (l :: ls)); EvPrint []] ++
   map (label_line rt) (l :: ls) ++
   [EvPrint []; heading_line; dump_line rt (JArr (l :: ls))]).
Proof.
  intros Hp Hl Ha Ht Ho.
  rewrite (report_post rt _ tr Hp Hl Ha Ht).
  cbn [truthy len iter].
  unfold bind at 1; rewrite bind_lift, !bind_print, bind_lift.
  rewrite (for_each_labels rt _ _ Ho), !bind_print.
  unfold print, emit, found_line, heading_line, dump_line.
  rewrite <- !app_assoc; reflexivity.
Qed.

(** Lines 159-165 for a list of labels one of which is not an object. *)
Lemma report_odd_label rt (data post author text odd : json)
    (rest good more : list json) (tr : trace) :
  get data (lit "posts") (JArr []) = Ok (JArr (post :: rest)) ->
  get post (lit "labels") (JArr []) = Ok (JArr (good ++ odd :: more)) ->
  author_of post = Ok author ->
  text_of_post post = Ok text ->
  forallb is_object good = true ->
  is_object odd = false ->
  report rt data tr =
  (Exc (AttributeError odd (lit "get")),
   (tr ++ post_lines rt author text) ++
   [found_line (List.length (good ++ odd :: more)); EvPrint []] ++
   map (label_line rt) good).
Proof.
  intros Hp Hl Ha Ht Hg Ho.
  rewrite (report_post rt _ tr Hp Hl Ha Ht).
  assert (T : truthy (JArr (good ++ odd :: more)) = true)
    by (destruct good; reflexivity).
  rewrite T; cbn [len iter].
  unfold bind at 1; rewrite bind_lift, !bind_print, bind_lift.
  rewrite (@for_each_odd_label rt good more odd _ Hg Ho).
  unfold found_line; rewrite <- !app_assoc; reflexivity.
Qed.

(** C8.  When the last post lookup succeeds and its list of posts is empty,
    the run ends with the line [Post not found] and status 1, and no
    [Error: ...] line of the top-level handler is printed. *)
Theorem empty_posts_not_found rt w (code : Z) (tr : trace)
    (req : request) (rep : reply) (data : json) :
  run rt w = (code, tr) ->
  last_call (calls_to GET_POSTS tr) = Some (req, rep) ->
  lookup_result rep = Ok data ->
  get data (lit "posts") (JArr []) = Ok (JArr []) ->
  code = 1%Z /\ (exists tr0, tr = tr0 ++ [not_found_line]) /\
  error_lines tr = [].
Proof.
  intros R L D Hp.
  destruct (run_report _ _ R L D) as (tr2 & o3 & tr3 & E2 & E3 & S3).
  rewrite (report_not_found rt _ tr2 Hp eq_refl) in E3.
  inversion E3; subst o3 tr3; simpl in S3; inversion S3; subst.
  repeat split; eauto.
  rewrite error_lines_app, E2; reflexivity.
Qed.

Lemma empty_posts_not_found_witness :
  let r := run plain_runtime empty_network in
  last_call (calls_to GET_POSTS (snd r)) =
    Some (lookup_request canonical_arg [], ok_reply (posts_doc [])) /\
  fst r = 1%Z /\ (exists tr0, snd r = tr0 ++ [not_found_line]) /\
  error_lines (snd r) = [].
Proof.
  assert (L : last_call (calls_to GET_POSTS
                           (snd (run plain_runtime empty_network))) =
              Some (lookup_request canonical_arg [], ok_reply (posts_doc [])))
    by (vm_compute; reflexivity).
  split; [exact L|].
  exact (@empty_posts_not_found plain_runtime empty_network _ _ _ _ _
           (run_pair _ _) L eq_refl eq_refl).
Defined.

(** [report] reads three things of the first post, and nothing else of the
    document: its labels, the handle of its author and the text of its
    record. *)
Lemma report_reads rt (data data' post post' : json) (rest rest' : list json)
    (tr : trace) :
  get data (lit "posts") (JArr []) = Ok (JArr (post :: rest)) ->
  get data' (lit "posts") (JArr []) = Ok (JArr (post' :: rest')) ->
  get post (lit "labels") (JArr []) = get post' (lit "labels") (JArr []) ->
  author_of post = author_of post' ->
  text_of_post post = text_of_post post' ->
  report rt data tr = report rt data' tr.
Proof.
  intros Hp Hp' Hl Ha Ht; unfold report.
  rewrite !bind_lift, Hp, Hp'; cbn [truthy negb item0].
  rewrite !bind_lift, Hl, Ha, Ht; reflexivity.
Qed.

(** A member [labels] put in front of a post changes neither its author nor
    its text. *)
Lemma with_empty_labels_reads (d : list (str * json)) :
  get (with_empty_labels d) (lit "labels") (JArr []) = Ok (JArr []) /\
  author_of (with_empty_labels d) = author_of (JObj d) /\
  text_of_post (with_empty_labels d) = text_of_post (JObj d).
Proof.
  unfold with_empty_labels, author_of, text_of_post.
  cbn [get subscript dict_get]; eval_closed_tests; auto.
Qed.

(** Lines 145-171 for a first post that can be displayed, with labels that
    can be displayed. *)
Lemma report_displayable rt (data post labels author text : json)
    (rest : list json) (tr : trace) :
  get data (lit "posts") (JArr []) = Ok (JArr (post :: rest)) ->
  get post (lit "labels") (JArr []) = Ok labels ->
  author_of post = Ok author ->
  text_of_post post = Ok text ->
  displayable labels = true ->
  report rt data tr =
  (Ret tt,
   (tr ++ post_lines rt author text) ++ label_lines rt labels ++
   [EvPrint []; heading_line; dump_line rt labels]).
Proof.
  intros Hp Hl Ha Ht Hd.
  destruct labels as [|b|z|f|s|[|l ls]|d];
    try (rewrite (report_labels rt _ tr Hp Hl Ha Ht Hd); reflexivity);
    rewrite (report_post rt _ tr Hp Hl Ha Ht);
    cbn [displayable forallb] in Hd;
    try (apply negb_true_iff in Hd; rewrite Hd);
    try change (truthy (JArr [])) with false;
    cbv beta iota; rewrite !bind_print;
    unfold print, emit, label_lines, heading_line, dump_line;
    rewrite <- !app_assoc; reflexivity.
Qed.

(** [report] on a first post that can be displayed prints the lines of the
    post first, and lines only after them. *)
Lemma report_post_first rt (data post author text : json) (rest : list json)
    (tr tr' : trace) (o : outcome unit) :
  get data (lit "posts") (JArr []) = Ok (JArr (post :: rest)) ->
  is_object post = true ->
  author_of post = Ok author ->
  text_of_post post = Ok text ->
  report rt data tr = (o, tr') ->
  exists ev, tr' = (tr ++ post_lines rt author text) ++ ev /\
             forallb is_print ev = true.
Proof.
  intros Hp Ho Ha Ht E.
  destruct post as [| | | | | |d]; try discriminate Ho.
  assert (Hl : exists labels,
             get (JObj d) (lit "labels") (JArr []) = Ok labels)
    by (simpl; destruct (dict_get d (lit "labels")); eauto).
  destruct Hl as [labels Hl].
  rewrite (report_post rt _ tr Hp Hl Ha Ht) in E.
  revert E.
  match goal with
  | |- ?k (tr ++ post_lines rt author text) = _ -> _ =>
      assert (A : appends is_print k)
        by (repeat appends_step; apply show_label_appends)
  end.
  intros E; exact (A _ _ _ E).
Qed.

(** C9.  When the last post lookup succeeds and its first post is an object
    with no [labels] member, or with the empty list as its [labels], the run
    ends, in its exit status and in everything that follows the lookup, as
    the report of the same post with [labels] set to the empty list ends.
    When the handle of the author and the text of the post can be read,
    what follows the lookup is the lines of the post, the line [No labels
    found], an empty line, the heading of the label data and the text of an
    empty JSON array, and the exit status is 0. *)
Theorem missing_labels_as_empty rt w (code : Z) (tr : trace)
    (req : request) (rep : reply) (data : json) (d : list (str * json))
    (rest : list json) :
  run rt w = (code, tr) ->
  last_call (calls_to GET_POSTS tr) = Some (req, rep) ->
  lookup_result rep = Ok data ->
  get data (lit "posts") (JArr []) = Ok (JArr (JObj d :: rest)) ->
  dict_get d (lit "labels") = None \/
  dict_get d (lit "labels") = Some (JArr []) ->
  exists tr1 tail,
    tr = tr1 ++ EvHttp req rep :: tail /\
    reported rt (posts_doc [with_empty_labels d]) (tr1 ++ [EvHttp req rep])
    = (code, tr) /\
    forall author text,
      author_of (JObj d) = Ok author ->
      text_of_post (JObj d) = Ok text ->
      code = 0%Z /\ tail = post_lines rt author text ++ no_labels_lines.
Proof.
  intros R L D Hp Hl.
  destruct (run_after_lookup _ _ R L D) as (tr1 & o3 & tr3 & E3 & S3).
  destruct (report_appends _ _ _ E3) as (ev3 & Htr3 & _).
  destruct (settle_keeps _ _ _ S3) as (tail & Htr & _).
  exists tr1, (ev3 ++ tail).
  assert (Hshape : tr = tr1 ++ EvHttp req rep :: ev3 ++ tail)
    by (rewrite Htr, Htr3, <- !app_assoc; reflexivity).
  split; [exact Hshape|]; split.
  - destruct (with_empty_labels_reads d) as (Wl & Wa & Wt).
    assert (Hsame : report rt data (tr1 ++ [EvHttp req rep]) =
                    report rt (posts_doc [with_empty_labels d])
                      (tr1 ++ [EvHttp req rep])).
    { apply (@report_reads rt data (posts_doc [with_empty_labels d])
               (JObj d) (with_empty_labels d) rest []);
        [exact Hp | reflexivity | | symmetry; exact Wa | symmetry; exact Wt].
      rewrite Wl; apply labels_default; exact Hl. }
    unfold reported; rewrite <- Hsame, E3; exact S3.
  - intros author text Ha Ht.
    rewrite (report_no_labels rt _ _ Hp (labels_default _ Hl) Ha Ht) in E3.
    injection E3 as <- <-.
    cbn [settle] in S3; injection S3 as <- Htr'.
    split; [reflexivity|].
    rewrite Hshape in Htr'.
    rewrite <- !app_assoc in Htr'; apply app_inv_head in Htr'.
    injection Htr' as Htr'; symmetry; exact Htr'.
Qed.

Lemma missing_labels_as_empty_witness :
  let r := run plain_runtime open_network in
  let d := [(lit "author", JObj [(lit "handle", JStr (lit "alice.example"))]);
            (lit "record", JObj [(lit "text", JStr (lit "hello"))])] in
  let req := lookup_request canonical_arg [] in
  let rep := ok_reply (posts_doc [JObj d]) in
  last_call (calls_to GET_POSTS (snd r)) = Some (req, rep) /\
  dict_get d (lit "labels") = None /\
  exists tr1 tail,
    snd r = tr1 ++ EvHttp req rep :: tail /\
    reported plain_runtime (posts_doc [with_empty_labels d])
      (tr1 ++ [EvHttp req rep]) = (fst r, snd r) /\
    fst r = 0%Z /\
    tail = post_lines plain_runtime (JStr (lit "alice.example"))
             (JStr (lit "hello")) ++ no_labels_lines.
Proof.
  intros r d req rep.
  assert (L : last_call (calls_to GET_POSTS (snd r)) = Some (req, rep))
    by (vm_compute; reflexivity).
  split; [exact L|]; split; [reflexivity|].
  destruct (@missing_labels_as_empty plain_runtime open_network _ _ _ _ _
              d [] (run_pair _ _) L eq_refl eq_refl (or_introl eq_refl))
    as (tr1 & tail & Htr & Hsame & Hshown).
  destruct (Hshown (JStr (lit "alice.example")) (JStr (lit "hello"))
              eq_refl eq_refl) as [Hc Ht].
  exists tr1, tail; repeat split; assumption.
Defined.

(** C10.  When the last post lookup succeeds with a list of posts, the run
    ends, in its exit status and in everything that follows the lookup, as
    the report of the first post alone ends, whatever the posts after the
    first are.  When the handle of the author, the text and the labels of
    the first post can be displayed, what follows the lookup is the lines of
    the first post with its author and its text, the lines of its labels, an
    empty line, the heading and the JSON text of its labels, and the exit
    status is 0. *)
Theorem first_post_only rt w (code : Z) (tr : trace)
    (req : request) (rep : reply) (data post : json) (rest : list json) :
  run rt w = (code, tr) ->
  last_call (calls_to GET_POSTS tr) = Some (req, rep) ->
  lookup_result rep = Ok data ->
  get data (lit "posts") (JArr []) = Ok (JArr (post :: rest)) ->
  exists tr1 tail,
    tr = tr1 ++ EvHttp req rep :: tail /\
    reported rt (posts_doc [post]) (tr1 ++ [EvHttp req rep]) = (code, tr) /\
    forall author text labels,
      author_of post = Ok author ->
      text_of_post post = Ok text ->
      get post (lit "labels") (JArr []) = Ok labels ->
      displayable labels = true ->
      code = 0%Z /\
      tail = post_lines rt author text ++ label_lines rt labels ++
             [EvPrint []; heading_line; dump_line rt labels].
Proof.
  intros R L D Hp.
  destruct (run_after_lookup _ _ R L D) as (tr1 & o3 & tr3 & E3 & S3).
  destruct (report_appends _ _ _ E3) as (ev3 & Htr3 & _).
  destruct (settle_keeps _ _ _ S3) as (tail & Htr & _).
  exists tr1, (ev3 ++ tail).
  assert (Hshape : tr = tr1 ++ EvHttp req rep :: ev3 ++ tail)
    by (rewrite Htr, Htr3, <- !app_assoc; reflexivity).
  split; [exact Hshape|]; split.
  - unfold reported, posts_doc.
    rewrite <- (report_first_post rt _ _ Hp), E3; exact S3.
  - intros author text labels Ha Ht Hl Hd.
    rewrite (report_displayable rt _ _ Hp Hl Ha Ht Hd) in E3.
    injection E3 as <- <-.
    cbn [settle] in S3; injection S3 as <- Htr'.
    split; [reflexivity|].
    rewrite Hshape in Htr'.
    rewrite <- !app_assoc in Htr'; apply app_inv_head in Htr'.
    injection Htr' as Htr'; symmetry; exact Htr'.
Qed.

Lemma first_post_only_witness :
  let r := run plain_runtime two_posts_network in
  let p1 := post_of "alice.example" "hello" [] in
  let p2 := post_of "bob.example" "bye"
              [(lit "labels", JArr [label "spam" "mod1"])] in
  let req := lookup_request canonical_arg [] in
  let rep := ok_reply (posts_doc [p1; p2]) in
  last_call (calls_to GET_POSTS (snd r)) = Some (req, rep) /\
  exists tr1 tail,
    snd r = tr1 ++ EvHttp req rep :: tail /\
    reported plain_runtime (posts_doc [p1]) (tr1 ++ [EvHttp req rep])
    = (fst r, snd r) /\
    fst r = 0%Z /\
    tail = post_lines plain_runtime (JStr (lit "alice.example"))
             (JStr (lit "hello")) ++
           label_lines plain_runtime (JArr []) ++
           [EvPrint []; heading_line; dump_line plain_runtime (JArr [])].
Proof.
  intros r p1 p2 req rep.
  assert (L : last_call (calls_to GET_POSTS (snd r)) = Some (req, rep))
    by (vm_compute; reflexivity).
  split; [exact L|].
  destruct (@first_post_only plain_runtime two_posts_network _ _ _ _ _
              p1 [p2] (run_pair _ _) L eq_refl eq_refl)
    as (tr1 & tail & Htr & Hsame & Hshown).
  destruct (Hshown (JStr (lit "alice.example")) (JStr (lit "hello"))
              (JArr []) eq_refl eq_refl eq_refl eq_refl) as [Hc Ht].
  exists tr1, tail; repeat split; assumption.
Defined.

(** ** The resolver *)

Lemma after_prefix_spec (p s rest : str) :
  after_prefix p s = Some rest -> s = p ++ rest.
Proof.
  revert s; induction p as [|x p IH]; intros [|y s]; simpl; intros H;
    try discriminate; try (inversion H; reflexivity).
  destruct (N.eqb_spec x y) as [->|]; [|discriminate].
  now rewrite (IH _ H).
Qed.

(** Both groups of a match are runs of their classes and are not empty. *)
Lemma match_at_groups (s handle rkey : str) :
  match_at s = Some (handle, rkey) ->
  handle <> [] /\ forallb handle_char handle = true /\
  rkey <> [] /\ forallb rkey_char rkey = true /\
  exists rest, s = lit "profile/" ++ handle ++ lit "/post/" ++ rkey ++ rest.
Proof.
  unfold match_at.
  destruct (after_prefix (lit "profile/") s) as [s1|] eqn:E1; [|discriminate].
  destruct (span handle_char s1) as [h s2] eqn:E2.
  destruct h as [|c h]; [discriminate|].
  destruct (after_prefix (lit "/post/") s2) as [s3|] eqn:E3; [|discriminate].
  destruct (span rkey_char s3) as [k s4] eqn:E4.
  destruct k as [|c' k]; [discriminate|].
  intros H; inversion H; subst handle rkey.
  apply after_prefix_spec in E1, E3.
  apply span_spec in E2 as (E2 & Hh & _), E4 as (E4 & Hk & _).
  repeat split; try discriminate; auto.
  exists s4; subst; rewrite <- ?app_assoc; reflexivity.
Qed.

Lemma re_search_groups (s handle rkey : str) :
  re_search s = Some (handle, rkey) ->
  handle <> [] /\ forallb handle_char handle = true /\
  rkey <> [] /\ forallb rkey_char rkey = true /\
  exists before rest,
    s = before ++ lit "profile/" ++ handle ++ lit "/post/" ++ rkey ++ rest.
Proof.
  induction s as [|c s IH]; simpl.
  - discriminate.
  - destruct (match_at (c :: s)) as [m|] eqn:E.
    + intros H; inversion H; subst m.
      destruct (match_at_groups _ E) as (? & ? & ? & ? & rest & ?).
      repeat split; auto; now exists [], rest.
    + intros H; destruct (IH H) as (? & ? & ? & ? & before & rest & ->).
      repeat split; auto; now exists (c :: before), rest.
Qed.

(** The web-URL branch of [parse_input], lines 38-55, for an input on which
    the pattern matches: one line, one call, and the reply decoded. *)
Lemma parse_web_url rt w (input_str handle rkey : str) (tr : trace) :
  startswith (lit "at://") input_str = false ->
  contains (lit "xrpc/com.atproto.repo.getRecord") input_str = false ->
  contains (lit "bsky.app") input_str = true ->
  re_search input_str = Some (handle, rkey) ->
  let tr1 := tr ++ [resolving_line handle] in
  let rep := http w tr1 (resolve_request handle) in
  parse_input rt w input_str tr =
  (outcome_of (resolved rt rkey rep),
   tr1 ++ [EvHttp (resolve_request handle) rep]).
Proof.
  intros H1 H2 H3 H4; unfold parse_input; rewrite H1, H2, H3, H4.
  rewrite bind_print; unfold bind at 1, requests_get, send.
  fold (resolve_request handle); fold (resolving_line handle).
  cbv zeta.
  destruct (http w _ _) as [r|msg]; simpl; [|reflexivity].
  rewrite bind_lift.
  destruct (raise_for_status r) as [[]|e]; simpl; [|reflexivity].
  rewrite bind_lift.
  destruct (resp_json r) as [body|e]; simpl; [|reflexivity].
  rewrite bind_lift.
  destruct (get body (lit "did") JNull) as [did|e]; simpl; [|reflexivity].
  destruct (truthy did); reflexivity.
Qed.

(** The API-URL branch of [parse_input], lines 25-35, touches nothing outside
    the process; what it returns is made of the first values of the three
    parameters of the query. *)
Lemma parse_api_url rt (input_str : str) :
  startswith (lit "at://") input_str = false ->
  contains (lit "xrpc/com.atproto.repo.getRecord") input_str = true ->
  exists r : result str,
    (forall w tr, parse_input rt w input_str tr = (outcome_of r, tr)) /\
    (forall uri, r = Ok uri ->
       exists query repo collection rkey,
         urlparse_query rt input_str = Ok query /\
         first_value (parse_qs rt query) (lit "repo") = Ok (Some repo) /\
         first_value (parse_qs rt query) (lit "collection")
           = Ok (Some collection) /\
         first_value (parse_qs rt query) (lit "rkey") = Ok (Some rkey) /\
         repo <> [] /\ collection <> [] /\ rkey <> [] /\
         uri = triple repo collection rkey).
Proof.
  intros H1 H2; unfold parse_input; rewrite H1, H2.
  destruct (urlparse_query rt input_str) as [q|e] eqn:Eq.
  2:{ exists (Err e); split; [reflexivity|discriminate]. }
  destruct (first_value (parse_qs rt q) (lit "repo")) as [repo|e] eqn:E1.
  2:{ exists (Err e); split; [|discriminate].
      intros; rewrite bind_lift, bind_lift, E1; reflexivity. }
  destruct (first_value (parse_qs rt q) (lit "collection")) as [coll|e] eqn:E2.
  2:{ exists (Err e); split; [|discriminate].
      intros; rewrite !bind_lift, E1, bind_lift, E2; reflexivity. }
  destruct (first_value (parse_qs rt q) (lit "rkey")) as [rkey|e] eqn:E3.
  2:{ exists (Err e); split; [|discriminate].
      intros; rewrite !bind_lift, E1, bind_lift, E2, bind_lift, E3.
      reflexivity. }
  destruct (present repo && present coll && present rkey) eqn:P.
  - exists (Ok (triple (text_of repo) (text_of coll) (text_of rkey))); split.
    + intros; rewrite !bind_lift, E1, bind_lift, E2, bind_lift, E3, P.
      reflexivity.
    + intros uri H; inversion H; subst uri.
      apply andb_true_iff in P as [P P3]; apply andb_true_iff in P as [P1 P2].
      destruct repo as [[|]|], coll as [[|]|], rkey as [[|]|];
        try discriminate.
      do 4 eexists;
        repeat split; first [reflexivity | eassumption | discriminate].
  - exists (Err (ValueError (lit "Could not parse API URL"))).
    split; [|discriminate].
    intros; rewrite !bind_lift, E1, bind_lift, E2, bind_lift, E3, P.
    reflexivity.
Qed.

(** The first branch of [parse_input], lines 21-22. *)
Lemma parse_canonical rt w (input_str : str) (tr : trace) :
  startswith (lit "at://") input_str = true ->
  parse_input rt w input_str tr = (Ret input_str, tr).
Proof. intros H; unfold parse_input; rewrite H; reflexivity. Qed.

(** C7.  An input that begins with [at://] is returned as it is, and nothing
    is printed or called. *)
Theorem canonical_input_unchanged rt w (input_str : str) (tr : trace) :
  startswith (lit "at://") input_str = true ->
  parse_input rt w input_str tr = (Ret input_str, tr).
Proof.
  intros Hprefix; unfold parse_input.
  rewrite Hprefix; reflexivity.
Qed.

Lemma canonical_input_unchanged_witness :
  startswith (lit "at://") canonical_arg = true /\
  parse_input plain_runtime open_network canonical_arg [] =
  (Ret canonical_arg, []).
Proof.
  split; [reflexivity|].
  apply (@canonical_input_unchanged plain_runtime open_network canonical_arg []).
  reflexivity.
Defined.

Lemma canonical_has_slash (s : str) :
  canonical s -> existsb (N.eqb 47) (skipn 5 s) = true.
Proof.
  intros (a & c & r & ->); unfold triple.
  change (skipn 5 (lit "at://" ++ a ++ lit "/" ++ c ++ lit "/" ++ r))
    with (a ++ [47%N] ++ c ++ lit "/" ++ r).
  rewrite !existsb_app; simpl; apply orb_true_r.
Qed.

(** C4, refuted as worded: an input of the first form that is no triple is
    returned as it is. *)
Lemma account_only_input_is_no_triple :
  ~ yields_canonical plain_runtime open_network account_only_arg.
Proof.
  intros H.
  specialize (H account_only_arg [] eq_refl).
  apply canonical_has_slash in H; vm_compute in H; discriminate H.
Qed.

(** C4, amended.  The result of the resolver, and what it prints and calls,
    depend on the outside only through the reply of the identity-resolution
    endpoint.  What it returns is the input itself for an input that begins
    with [at://], whatever follows; for an API URL, the text
    [at://<repo>/<collection>/<rkey>] made of the first values of the
    parameters [repo], [collection] and [rkey] of the query, in this order,
    none of them empty; and for a web URL the text
    [at://<did>/app.bsky.feed.post/<key>], where [<did>] is the text of the
    [did] member of the reply of the identity-resolution endpoint to the one
    call made for the profile segment, a member that Python counts as true,
    and [<key>] is the record key that the pattern found in the URL, not
    empty and free of [/], [?] and white space. *)
Theorem resolve_shape rt w1 w2 (input_str : str) (tr : trace) :
  (forall t handle,
     http w1 t (resolve_request handle) = http w2 t (resolve_request handle)) ->
  parse_input rt w1 input_str tr = parse_input rt w2 input_str tr /\
  forall uri tr',
    parse_input rt w1 input_str tr = (Ret uri, tr') ->
    (startswith (lit "at://") input_str = true /\
     uri = input_str /\ tr' = tr) \/
    (startswith (lit "at://") input_str = false /\
     contains (lit "xrpc/com.atproto.repo.getRecord") input_str = true /\
     tr' = tr /\
     exists query repo collection rkey,
       urlparse_query rt input_str = Ok query /\
       first_value (parse_qs rt query) (lit "repo") = Ok (Some repo) /\
       first_value (parse_qs rt query) (lit "collection")
         = Ok (Some collection) /\
       first_value (parse_qs rt query) (lit "rkey") = Ok (Some rkey) /\
       repo <> [] /\ collection <> [] /\ rkey <> [] /\
       uri = triple repo collection rkey) \/
    (startswith (lit "at://") input_str = false /\
     contains (lit "xrpc/com.atproto.repo.getRecord") input_str = false /\
     contains (lit "bsky.app") input_str = true /\
     exists segment rkey r body did,
       re_search input_str = Some (segment, rkey) /\
       rkey <> [] /\ forallb rkey_char rkey = true /\
       http w1 (tr ++ [resolving_line segment]) (resolve_request segment)
         = Response r /\
       tr' = tr ++ [resolving_line segment;
                    EvHttp (resolve_request segment) (Response r)] /\
       raise_for_status r = Ok tt /\ resp_json r = Ok body /\
       get body (lit "did") JNull = Ok did /\ truthy did = true /\
       uri = triple (to_str rt did) (lit "app.bsky.feed.post") rkey).
Proof.
  intros Hnet.
  destruct (startswith (lit "at://") input_str) eqn:H1.
  { rewrite !(parse_canonical rt _ _ _ H1).
    split; [reflexivity|].
    intros uri tr' H; inversion H; auto. }
  destruct (contains (lit "xrpc/com.atproto.repo.getRecord") input_str) eqn:H2.
  { destruct (parse_api_url rt _ H1 H2) as (r & Hr & Hshape).
    rewrite !Hr; split; [reflexivity|].
    intros uri tr' H; right; left.
    injection H as Ho <-.
    repeat (split; [reflexivity|]).
    apply Hshape; destruct r; inversion Ho; reflexivity. }
  destruct (contains (lit "bsky.app") input_str) eqn:H3.
  2:{ unfold parse_input; rewrite H1, H2, H3.
      split; [reflexivity|discriminate]. }
  destruct (re_search input_str) as [[segment rkey]|] eqn:H4.
  2:{ unfold parse_input; rewrite H1, H2, H3, H4.
      split; [reflexivity|discriminate]. }
  rewrite !(parse_web_url rt _ _ _ H1 H2 H3 H4), Hnet.
  split; [reflexivity|].
  intros uri tr' H; right; right.
  repeat (split; [reflexivity|]).
  destruct (re_search_groups _ H4) as (_ & _ & Hk & Hc & _).
  rewrite <- Hnet in H.
  destruct (http w1 _ _) as [r|msg] eqn:Hrep; simpl in H; [|discriminate].
  destruct (raise_for_status r) as [[]|e] eqn:Hs; simpl in H; [|discriminate].
  destruct (resp_json r) as [body|e] eqn:Hb; simpl in H; [|discriminate].
  destruct (get body (lit "did") JNull) as [did|e] eqn:Hg; simpl in H;
    [|discriminate].
  destruct (truthy did) eqn:Hd; simpl in H; [|discriminate].
  injection H as <- <-.
  exists segment, rkey, r, body, did.
  rewrite <- app_assoc; repeat split; auto.
Qed.

Lemma resolve_shape_witness :
  let w1 := world_of handle_profile_arg no_env (serving did_doc) in
  let w2 := world_of handle_profile_arg env_credentials (serving did_doc) in
  (forall t handle,
     http w1 t (resolve_request handle) = http w2 t (resolve_request handle)) /\
  parse_input plain_runtime w1 handle_profile_arg [] =
  parse_input plain_runtime w2 handle_profile_arg [] /\
  exists segment rkey r body did,
    re_search handle_profile_arg = Some (segment, rkey) /\
    http w1 [resolving_line segment] (resolve_request segment) = Response r /\
    resp_json r = Ok body /\
    get body (lit "did") JNull = Ok did /\
    fst (parse_input plain_runtime w1 handle_profile_arg []) =
    Ret (triple (to_str plain_runtime did) (lit "app.bsky.feed.post") rkey).
Proof.
  intros w1 w2.
  assert (H : forall t handle,
            http w1 t (resolve_request handle) =
            http w2 t (resolve_request handle)) by (intros; reflexivity).
  split; [exact H|].
  destruct (@resolve_shape plain_runtime w1 w2 handle_profile_arg [] H)
    as [Heq Hshape].
  split; [exact Heq|].
  destruct (parse_input plain_runtime w1 handle_profile_arg [])
    as [o tr'] eqn:E.
  assert (Ho : exists uri, o = Ret uri).
  { revert E; vm_compute; intros E; injection E as <- _; eauto. }
  destruct Ho as [uri ->].
  destruct (Hshape uri tr' eq_refl)
    as [(Hc & _)|[(_ & Hc & _)|(_ & _ & _ & Hweb)]];
    [discriminate Hc | discriminate Hc |].
  destruct Hweb as (segment & rkey & r & body & did
                    & Hs & _ & _ & Hrep & _ & _ & Hb & Hg & _ & ->).
  exists segment, rkey, r, body, did; repeat split; assumption.
Defined.

(** C5, refuted as worded: a profile segment that is an account identifier
    is sent to the identity-resolution endpoint all the same. *)
Lemma account_identifier_is_resolved_too :
  ~ resolves_only_handles plain_runtime
      (world_of did_profile_arg no_env (serving did_doc)) did_profile_arg.
Proof.
  intros H.
  specialize (H (lit "did:plc:abc123") (lit "xyz") eq_refl eq_refl).
  vm_compute in H; discriminate H.
Qed.

(** C5, amended.  For a web URL on which the pattern matches, the resolver
    prints its progress line and calls the identity-resolution endpoint
    exactly once, with the profile segment as the handle, whatever the
    segment is. *)
Theorem web_url_always_resolves rt w (input_str segment rkey : str)
    (tr : trace) :
  startswith (lit "at://") input_str = false ->
  contains (lit "xrpc/com.atproto.repo.getRecord") input_str = false ->
  contains (lit "bsky.app") input_str = true ->
  re_search input_str = Some (segment, rkey) ->
  exists o rep,
    parse_input rt w input_str tr =
    (o, tr ++ [resolving_line segment; EvHttp (resolve_request segment) rep]) /\
    rep = http w (tr ++ [resolving_line segment]) (resolve_request segment).
Proof.
  intros H1 H2 H3 H4.
  rewrite (parse_web_url rt w _ tr H1 H2 H3 H4).
  do 2 eexists; split; [|reflexivity].
  now rewrite <- app_assoc.
Qed.

Lemma web_url_always_resolves_witness :
  let w := world_of did_profile_arg no_env (serving did_doc) in
  re_search did_profile_arg = Some (lit "did:plc:abc123", lit "xyz") /\
  is_account_identifier (lit "did:plc:abc123") = true /\
  exists o rep,
    parse_input plain_runtime w did_profile_arg [] =
    (o, [resolving_line (lit "did:plc:abc123");
         EvHttp (resolve_request (lit "did:plc:abc123")) rep]).
Proof.
  intros w; split; [reflexivity|]; split; [reflexivity|].
  destruct (@web_url_always_resolves plain_runtime w did_profile_arg
              (lit "did:plc:abc123") (lit "xyz") []
              eq_refl eq_refl eq_refl eq_refl) as (o & rep & H & _).
  exists o, rep; exact H.
Defined.




(** ** The examples of the specification, run *)

Example resolve_api_url :
  parse_input plain_runtime open_network
    (lit "https://bsky.social/xrpc/com.atproto.repo.getRecord?repo=did:plc:abc&collection=app.bsky.feed.post&rkey=xyz")
    [] =
  (Ret (lit "at://did:plc:abc/app.bsky.feed.post/xyz"), []).
Proof. vm_compute; reflexivity. Qed.

Example resolve_web_url :
  fst (parse_input plain_runtime
         (world_of handle_profile_arg no_env (serving did_doc))
         handle_profile_arg []) =
  Ret (lit "at://did:plc:999/app.bsky.feed.post/xyz").
Proof. vm_compute; reflexivity. Qed.

Example resolve_unrecognized :
  parse_input plain_runtime open_network (lit "not a recognized string") [] =
  (Exc (ValueError (lit "Unrecognized input format")), []).
Proof. vm_compute; reflexivity. Qed.

Example two_labels_shown :
  let r := run plain_runtime two_labels_network in
  fst r = 0%Z /\
  skipn 8 (printed (snd r)) =
  [9888%N :: 65039%N :: lit "  Found 2 label(s):"; [];
   lit "  " ++ 8226%N :: lit " spam (from: mod1)";
   lit "  " ++ 8226%N :: lit " nsfw (from: mod2)"; [];
   128202%N :: lit " Full label data:";
   json_dumps plain_runtime (JArr [label "spam" "mod1"; label "nsfw" "mod2"])].
Proof. split; vm_compute; reflexivity. Qed.

(** A post with no member at all: its labels read as the empty list, and
    the run stops at the line of the author. *)
Example bare_post_is_reported :
  let r := run plain_runtime bare_post_network in
  fst r = 1%Z /\
  last (snd r) (EvPrint []) =
  error_line plain_runtime (KeyError (JStr (lit "author"))).
Proof. split; vm_compute; reflexivity. Qed.

Example usage_without_argument :
  fst (run plain_runtime
         {| argv := [lit "check-labels.py"]; environ := no_env;
            stdin_line := fun _ _ => Ok [];
            tty_secret := fun _ _ => Ok [];
            http := serving JNull |}) = 1%Z.
Proof. vm_compute; reflexivity. Qed.

(** * Further properties of the script *)

(** ** The cases of a run *)

(** [parse_input] adds nothing to the log, or its progress line and one call
    of the identity-resolution endpoint for the first group of the match. *)
Lemma parse_input_events rt w (input_str : str) (tr tr' : trace)
    (o : outcome str) :
  parse_input rt w input_str tr = (o, tr') ->
  tr' = tr \/
  exists handle rkey rep,
    re_search input_str = Some (handle, rkey) /\
    tr' = tr ++ [resolving_line handle; EvHttp (resolve_request handle) rep].
Proof.
  destruct (startswith (lit "at://") input_str) eqn:H1.
  { rewrite (parse_canonical rt _ _ _ H1); intros H; inversion H; auto. }
  destruct (contains (lit "xrpc/com.atproto.repo.getRecord") input_str) eqn:H2.
  { destruct (parse_api_url rt _ H1 H2) as (r & Hr & _).
    rewrite Hr; intros H; inversion H; auto. }
  destruct (contains (lit "bsky.app") input_str) eqn:H3.
  2:{ unfold parse_input; rewrite H1, H2, H3; intros H; inversion H; auto. }
  destruct (re_search input_str) as [[handle rkey]|] eqn:H4.
  2:{ unfold parse_input; rewrite H1, H2, H3, H4; intros H; inversion H; auto. }
  rewrite (parse_web_url rt _ _ _ H1 H2 H3 H4).
  intros H; injection H as _ <-; right.
  do 3 eexists; split; [reflexivity|].
  rewrite <- app_assoc; reflexivity.
Qed.

(** The events of a run that has an argument: those of the resolver, two
    lines, those of one path of the fetch, and lines only after that. *)
Lemma run_path rt w (code : Z) (tr : trace) :
  (2 <= List.length (argv w))%nat ->
  run rt w = (code, tr) ->
  exists o1 ev1,
    parse_input rt w (nth 1 (argv w) []) [] = (o1, ev1) /\
    (ev1 = [] \/
     exists handle rkey rep,
       re_search (nth 1 (argv w) []) = Some (handle, rkey) /\
       ev1 = [resolving_line handle; EvHttp (resolve_request handle) rep]) /\
    match o1 with
    | Ret at_uri =>
        exists o2 ev2 tail,
          fetch_path rt w at_uri o2 ev2 /\
          tr = ev1 ++ [checking_line at_uri; EvPrint []] ++ ev2 ++ tail /\
          forallb is_print tail = true
    | Exc e => tr = ev1 ++ [error_line rt e]
    | SysExit _ => False
    end.
Proof.
  intros Hargs R.
  destruct (run_cases _ _ Hargs R) as (o1 & ev1 & E1 & H).
  exists o1, ev1; split; [exact E1|]; split.
  { destruct (parse_input_events _ _ _ _ E1) as [Hq|(h & k & rep & Hs & Hq)];
      [now left|right].
    exists h, k, rep; split; [exact Hs|exact Hq]. }
  destruct o1 as [at_uri|e|c]; [| |exact H].
  - destruct H as (o2 & tr2 & E2 & H).
    destruct (fetch_follows_path _ _ _ _ E2) as (ev2 & P & ->).
    exists o2, ev2.
    destruct o2 as [data|e|c]; [| |contradiction].
    + destruct H as (o3 & tr3 & E3 & S3).
      destruct (report_appends _ _ _ E3) as (ev3 & -> & P3).
      destruct (settle_keeps _ _ _ S3) as (tail & -> & Pt).
      exists (ev3 ++ tail); split; [exact P|]; split.
      * rewrite <- !app_assoc; reflexivity.
      * rewrite forallb_app, P3, Pt; reflexivity.
    + destruct (settle_keeps _ _ _ H) as (tail & -> & Pt).
      exists tail; split; [exact P|]; split; [|exact Pt].
      rewrite <- !app_assoc; reflexivity.
  - simpl in H; inversion H; reflexivity.
Qed.

Lemma requests_of_app (a b : trace) :
  requests_of (a ++ b) = requests_of a ++ requests_of b.
Proof.
  induction a as [|e a IH]; simpl; [reflexivity|].
  destruct e; simpl; now rewrite ?IH.
Qed.

Lemma prints_no_requests (ev : trace) :
  forallb is_print ev = true -> requests_of ev = [].
Proof.
  induction ev as [|e ev IH]; simpl; [reflexivity|].
  destruct e; simpl; try discriminate; auto.
Qed.

Lemma asked_handle_requests w (a : result str) (ev : trace) :
  asked_handle w a ev -> requests_of ev = [].
Proof. intros H; inversion H; reflexivity. Qed.

Lemma asked_password_requests w (a : result str) (ev : trace) :
  asked_password w a ev -> requests_of ev = [].
Proof. intros H; inversion H; reflexivity. Qed.

(** The requests of each path of the fetch. *)
Lemma fetch_path_requests rt w (at_uri : str) (o : outcome json) (ev : trace) :
  fetch_path rt w at_uri o ev ->
  requests_of ev = [lookup_request at_uri []] \/
  exists handle password,
    requests_of ev = [lookup_request at_uri []; login_request handle password] \/
    exists token,
      requests_of ev =
      [lookup_request at_uri []; login_request handle password;
       lookup_request at_uri (auth_headers rt token)].
Proof.
  intros P; inversion P; subst;
    repeat match goal with
      | H : asked_handle _ _ _ |- _ =>
          apply asked_handle_requests in H
      | H : asked_password _ _ _ |- _ =>
          apply asked_password_requests in H
      end;
    rewrite ?requests_of_app;
    repeat match goal with H : requests_of _ = [] |- _ => rewrite H end;
    cbn [requests_of attempt_line login_line login_ok_line app]; eauto 10.
Qed.

(** X: the requests of a run, in order.  A run makes at most four HTTP
    calls: first at most one call of the identity-resolution endpoint, for
    the profile segment of a web URL; then the unauthenticated post lookup,
    the login, and the post lookup with the headers of the token.  Both
    lookups ask for the reference that the resolver returned. *)
Theorem requests_in_order rt w (code : Z) (tr : trace) :
  run rt w = (code, tr) ->
  exists rs fs,
    requests_of tr = rs ++ fs /\
    (rs = [] \/
     exists handle rkey,
       re_search (nth 1 (argv w) []) = Some (handle, rkey) /\
       rs = [resolve_request handle]) /\
    (fs = [] \/
     exists at_uri,
       fst (parse_input rt w (nth 1 (argv w) []) []) = Ret at_uri /\
       (fs = [lookup_request at_uri []] \/
        exists handle password,
          fs = [lookup_request at_uri []; login_request handle password] \/
          exists token,
            fs = [lookup_request at_uri []; login_request handle password;
                  lookup_request at_uri (auth_headers rt token)])).
Proof.
  intros R.
  destruct (Nat.lt_ge_cases (List.length (argv w)) 2) as [Hargs|Hargs].
  { destruct (usage_run rt w Hargs) as (tr0 & R0 & P0).
    rewrite R0 in R; inversion R; subst.
    exists [], []; rewrite (prints_no_requests _ P0); auto. }
  destruct (run_path _ _ Hargs R) as (o1 & ev1 & E1 & Hev1 & H).
  assert (Hrs : exists rs, requests_of ev1 = rs /\
     (rs = [] \/
      exists handle rkey,
        re_search (nth 1 (argv w) []) = Some (handle, rkey) /\
        rs = [resolve_request handle])).
  { destruct Hev1 as [->|(h & k & rep & Hs & ->)].
    - exists []; auto.
    - exists [resolve_request h]; split; [reflexivity|right; eauto]. }
  destruct Hrs as (rs & Hrs & Hshape).
  exists rs; destruct o1 as [at_uri|e|c]; [| |contradiction].
  - destruct H as (o2 & ev2 & tail & P & -> & Pt).
    exists (requests_of ev2); split; [|split; [exact Hshape|]].
    + rewrite !requests_of_app, Hrs, (prints_no_requests _ Pt).
      cbn [requests_of checking_line app]; now rewrite app_nil_r.
    + right; exists at_uri; split; [now rewrite E1|].
      exact (fetch_path_requests P).
  - subst tr; exists []; split; [|split; [exact Hshape|now left]].
    rewrite requests_of_app, Hrs; reflexivity.
Qed.

Lemma requests_in_order_witness :
  exists rs fs,
    requests_of (snd (run plain_runtime login_accepted)) = rs ++ fs /\
    (rs = [] \/
     exists handle rkey,
       re_search (nth 1 (argv login_accepted) []) = Some (handle, rkey) /\
       rs = [resolve_request handle]) /\
    (fs = [] \/
     exists at_uri,
       fst (parse_input plain_runtime login_accepted
              (nth 1 (argv login_accepted) []) []) = Ret at_uri /\
       (fs = [lookup_request at_uri []] \/
        exists handle password,
          fs = [lookup_request at_uri []; login_request handle password] \/
          exists token,
            fs = [lookup_request at_uri []; login_request handle password;
                  lookup_request at_uri (auth_headers plain_runtime token)])).
Proof.
  exact (@requests_in_order plain_runtime login_accepted _ _ (run_pair _ _)).
Defined.

(** ** Runs around a fetch *)

Lemma outside_fetch_quiet (ev : trace) :
  forallb outside_fetch ev = true ->
  calls_to GET_POSTS ev = [] /\ calls_to CREATE_SESSION ev = [] /\
  filter is_prompt ev = [] /\ credential_events ev = [].
Proof.
  induction ev as [|e ev IH]; simpl; [auto|].
  intros H; apply andb_true_iff in H as [He Hev].
  destruct (IH Hev) as (H1 & H2 & H3 & H4).
  destruct e; simpl in *; try discriminate; auto.
  apply eqb_eq in He; rewrite He.
  replace (eqb RESOLVE_HANDLE GET_POSTS) with false by reflexivity.
  replace (eqb RESOLVE_HANDLE CREATE_SESSION) with false by reflexivity.
  auto.
Qed.

Lemma prints_outside_fetch (ev : trace) :
  forallb is_print ev = true -> forallb outside_fetch ev = true.
Proof.
  induction ev as [|e ev IH]; simpl; [reflexivity|].
  intros H; apply andb_true_iff in H as [He Hev].
  unfold outside_fetch at 1; rewrite He; simpl; auto.
Qed.

Lemma resolver_outside_fetch (ev : trace) :
  forallb resolver_event ev = true -> forallb outside_fetch ev = true.
Proof.
  induction ev as [|e ev IH]; simpl; [reflexivity|].
  intros H; apply andb_true_iff in H as [He Hev].
  unfold outside_fetch at 1; rewrite He, orb_true_r; simpl; auto.
Qed.

(** A run is made of events from outside the fetch only, or of such events,
    one path of the fetch, and lines. *)
Lemma run_around_fetch rt w (code : Z) (tr : trace) :
  run rt w = (code, tr) ->
  (code = 1%Z /\ forallb outside_fetch tr = true) \/
  exists at_uri o2 pre ev2 tail,
    forallb outside_fetch pre = true /\
    fetch_path rt w at_uri o2 ev2 /\
    tr = pre ++ ev2 ++ tail /\
    forallb is_print tail = true /\
    (forall e, o2 = Exc e -> code = 1%Z /\ tail = [error_line rt e]).
Proof.
  intros R.
  destruct (Nat.lt_ge_cases (List.length (argv w)) 2) as [Hargs|Hargs].
  { destruct (usage_run rt w Hargs) as (tr0 & R0 & P0).
    rewrite R0 in R; inversion R; subst.
    left; split; [reflexivity|now apply prints_outside_fetch]. }
  destruct (run_cases _ _ Hargs R) as (o1 & ev1 & E1 & H).
  destruct (parse_input_appends _ _ _ _ E1) as (ev & Heq & Q).
  simpl in Heq; subst ev.
  apply resolver_outside_fetch in Q.
  destruct o1 as [at_uri|e|c]; [| |contradiction].
  - right.
    destruct H as (o2 & tr2 & E2 & H).
    destruct (fetch_follows_path _ _ _ _ E2) as (ev2 & P & ->).
    exists at_uri, o2, ((ev1 ++ [checking_line at_uri]) ++ [EvPrint []]), ev2.
    assert (Qpre : forallb outside_fetch
                     ((ev1 ++ [checking_line at_uri]) ++ [EvPrint []]) = true).
    { rewrite !forallb_app, Q; reflexivity. }
    destruct o2 as [data|e|c]; [| |contradiction].
    + destruct H as (o3 & tr3 & E3 & S3).
      destruct (report_appends _ _ _ E3) as (ev3 & -> & P3).
      destruct (settle_keeps _ _ _ S3) as (tail & -> & Pt).
      exists (ev3 ++ tail).
      split; [exact Qpre|]; split; [exact P|]; split; [|split].
      * rewrite <- !app_assoc; reflexivity.
      * rewrite forallb_app, P3, Pt; reflexivity.
      * intros e He; discriminate He.
    + cbn [settle] in H; injection H as <- <-.
      exists [error_line rt e].
      split; [exact Qpre|]; split; [exact P|]; split; [|split].
      * rewrite <- !app_assoc; reflexivity.
      * reflexivity.
      * intros e' He; inversion He; auto.
  - left; cbn [settle] in H; injection H as <- <-.
    split; [reflexivity|].
    rewrite forallb_app, Q; reflexivity.
Qed.

Lemma present_some (v : str) : v <> [] -> present (Some v) = true.
Proof. destruct v; [contradiction|reflexivity]. Qed.

(** With both variables set and not empty, a path of the fetch has no prompt,
    and its login, if it has one, carries the two values. *)
Lemma fetch_path_environment rt w (at_uri : str) (o : outcome json)
    (ev : trace) (h p : str) :
  fetch_path rt w at_uri o ev ->
  environ w (lit "BLUESKY_HANDLE") = Some h -> h <> [] ->
  environ w (lit "BLUESKY_APP_PASSWORD") = Some p -> p <> [] ->
  filter is_prompt ev = [] /\
  forall req rep, In (req, rep) (calls_to CREATE_SESSION ev) ->
                  req = login_request h p.
Proof.
  intros P EH Hh EP Hp.
  pose proof (present_some Hh) as PH; pose proof (present_some Hp) as PP.
  rewrite <- EH in PH; rewrite <- EP in PP.
  invert_path P;
    try (match goal with
         | H : present (environ _ _) = false |- _ =>
             rewrite H in PH || rewrite H in PP; discriminate
         end);
    repeat match goal with
      | H : environ _ _ = Some ?v |- _ =>
          first [ rewrite EH in H | rewrite EP in H ];
          injection H as ->
      end;
    read_path; (split; [reflexivity|]);
    intros req rep Hin; simpl in Hin;
    repeat match goal with
      | H : _ \/ _ |- _ => destruct H
      | H : False |- _ => contradiction
      | H : (_, _) = (_, _) |- _ => inversion H; clear H
      end; reflexivity.
Qed.

(** X: credentials of the environment.  When both variables are set and not
    empty, no run ever prompts on the terminal, and a login call, if the run
    makes one, sends exactly the two values of the environment. *)
Theorem environment_credentials_are_used rt w (code : Z) (tr : trace)
    (h p : str) :
  run rt w = (code, tr) ->
  environ w (lit "BLUESKY_HANDLE") = Some h -> h <> [] ->
  environ w (lit "BLUESKY_APP_PASSWORD") = Some p -> p <> [] ->
  filter is_prompt tr = [] /\
  forall req rep, In (req, rep) (calls_to CREATE_SESSION tr) ->
                  req = login_request h p.
Proof.
  intros R EH Hh EP Hp.
  destruct (run_around_fetch _ _ R)
    as [(_ & Q)|(at_uri & o2 & pre & ev2 & tail & Q & P & -> & Pt & _)].
  { destruct (outside_fetch_quiet _ Q) as (_ & S & F & _).
    rewrite S, F; split; [reflexivity|intros ? ? []]. }
  destruct (outside_fetch_quiet _ Q) as (_ & S1 & F1 & _).
  destruct (outside_fetch_quiet _ (prints_outside_fetch _ Pt))
    as (_ & S3 & F3 & _).
  destruct (fetch_path_environment P EH Hh EP Hp) as (F2 & L2).
  rewrite !filter_app, !calls_to_app, F1, F2, F3, S1, S3.
  cbn [app]; rewrite app_nil_r.
  split; [reflexivity|exact L2].
Qed.

Lemma environment_credentials_are_used_witness :
  let tr := snd (run plain_runtime talkative_login) in
  filter is_prompt tr = [] /\
  forall req rep, In (req, rep) (calls_to CREATE_SESSION tr) ->
                  req = login_request (lit "alice.example") (lit "hunter2").
Proof.
  apply (@environment_credentials_are_used plain_runtime talkative_login
           _ _ (lit "alice.example") (lit "hunter2") (run_pair _ _)).
  - reflexivity.
  - discriminate.
  - reflexivity.
  - discriminate.
Defined.

(** After a 401, a path of the fetch asks on the terminal for what the
    environment does not give. *)
Lemma fetch_path_prompts rt w (at_uri : str) (o : outcome json) (ev : trace)
    (req0 : request) (r0 : response) :
  fetch_path rt w at_uri o ev ->
  hd_error (calls_to GET_POSTS ev) = Some (req0, Response r0) ->
  status_code r0 = 401%Z ->
  (present (environ w (lit "BLUESKY_HANDLE")) = false ->
   exists a, In (EvInput (lit "Bluesky handle: ") a) ev) /\
  (present (environ w (lit "BLUESKY_HANDLE")) = true ->
   present (environ w (lit "BLUESKY_APP_PASSWORD")) = false ->
   exists a, In (EvGetpass (lit "App password: ") a) ev).
Proof.
  intros P H0 H401.
  invert_path P; revert H0; read_path; intros H0;
    try (simpl in H0; injection H0 as _ E0;
         match goal with
         | U : unauthorized _ = false |- _ =>
             rewrite E0 in U; simpl in U; rewrite H401 in U; discriminate U
         end);
    (split;
     [ intros PH | intros PH PP ];
     repeat match goal with
       | E : environ _ _ = Some ?v, Q : present (Some ?v) = true |- _ =>
           rewrite <- E in Q
       end;
     try congruence;
     eexists; simpl; eauto 12).
Qed.

(** X: prompts.  After a 401 on the unauthenticated lookup, a handle variable
    that is unset or empty makes the run ask for the handle with [input]; and
    when the handle comes from the environment, a password variable that is
    unset or empty makes it ask for the password with [getpass]. *)
Theorem missing_credentials_are_asked_for rt w (code : Z) (tr : trace)
    (req0 : request) (r0 : response) :
  run rt w = (code, tr) ->
  hd_error (calls_to GET_POSTS tr) = Some (req0, Response r0) ->
  status_code r0 = 401%Z ->
  (present (environ w (lit "BLUESKY_HANDLE")) = false ->
   exists a, In (EvInput (lit "Bluesky handle: ") a) tr) /\
  (present (environ w (lit "BLUESKY_HANDLE")) = true ->
   present (environ w (lit "BLUESKY_APP_PASSWORD")) = false ->
   exists a, In (EvGetpass (lit "App password: ") a) tr).
Proof.
  intros R H0 H401.
  destruct (run_around_fetch _ _ R)
    as [(_ & Q)|(at_uri & o2 & pre & ev2 & tail & Q & P & -> & Pt & _)].
  { destruct (outside_fetch_quiet _ Q) as (G & _).
    rewrite G in H0; discriminate. }
  destruct (outside_fetch_quiet _ Q) as (G1 & _).
  rewrite !calls_to_app, G1 in H0; simpl in H0.
  assert (H0' : hd_error (calls_to GET_POSTS ev2) = Some (req0, Response r0)).
  { destruct (calls_to GET_POSTS ev2) eqn:E; [|exact H0].
    exfalso; clear H0; revert E.
    invert_path P; read_path; discriminate. }
  destruct (fetch_path_prompts P H0' H401) as [A B].
  split.
  - intros PH; destruct (A PH) as [a Ha]; exists a.
    apply in_or_app; right; apply in_or_app; now left.
  - intros PH PP; destruct (B PH PP) as [a Ha]; exists a.
    apply in_or_app; right; apply in_or_app; now left.
Qed.

Lemma missing_credentials_are_asked_for_witness :
  let tr := snd (run plain_runtime empty_handle_login) in
  hd_error (calls_to GET_POSTS tr) =
    Some (lookup_request canonical_arg [],
          Response (status_response 401 (lit "Unauthorized"))) /\
  present (environ empty_handle_login (lit "BLUESKY_HANDLE")) = false /\
  exists a, In (EvInput (lit "Bluesky handle: ") a) tr.
Proof.
  intros tr.
  assert (H0 : hd_error (calls_to GET_POSTS tr) =
               Some (lookup_request canonical_arg [],
                     Response (status_response 401 (lit "Unauthorized"))))
    by (vm_compute; reflexivity).
  split; [exact H0|]; split; [reflexivity|].
  exact (proj1 (@missing_credentials_are_asked_for plain_runtime
                  empty_handle_login _ _ _ _ (run_pair _ _) H0 eq_refl)
           eq_refl).
Defined.

(** ** Failures of the fetch *)

(** X: a lookup that fails otherwise than with a 401.  When the first post
    lookup fails and its failure is not an [HTTPError] of status 401 (another
    4xx or 5xx status, a failure of the network, a body that does not
    decode), the run makes no other lookup and no login, prints the line
    [Error: <message>] of that failure last, and exits with status 1. *)
Theorem other_failures_are_not_retried rt w (code : Z) (tr : trace)
    (req : request) (rep : reply) (e : exn) :
  run rt w = (code, tr) ->
  hd_error (calls_to GET_POSTS tr) = Some (req, rep) ->
  unauthorized rep = false ->
  lookup_result rep = Err e ->
  code = 1%Z /\
  calls_to GET_POSTS tr = [(req, rep)] /\
  calls_to CREATE_SESSION tr = [] /\
  exists tr0, tr = tr0 ++ [error_line rt e].
Proof.
  intros R H0 U E.
  destruct (run_around_fetch _ _ R)
    as [(_ & Q)|(at_uri & o2 & pre & ev2 & tail & Q & P & -> & Pt & Hexc)].
  { destruct (outside_fetch_quiet _ Q) as (G & _).
    rewrite G in H0; discriminate. }
  destruct (outside_fetch_quiet _ Q) as (G1 & S1 & _).
  destruct (outside_fetch_quiet _ (prints_outside_fetch _ Pt))
    as (G3 & S3 & _).
  rewrite !calls_to_app, G1, G3, S1, S3, !app_nil_r in *.
  cbn [app] in *.
  invert_path P; revert H0; read_path; intros H0;
    simpl in H0; injection H0 as <- <-;
    try match goal with
        | Hs : status_code ?r = 401%Z |- _ =>
            simpl in U; rewrite Hs in U; discriminate U
        end.
  rewrite E in Hexc; destruct (Hexc e eq_refl) as [-> ->].
  repeat split.
  eexists (pre ++ [_; _]).
  rewrite <- app_assoc; reflexivity.
Qed.

Lemma other_failures_are_not_retried_witness :
  let r := run plain_runtime failing_network in
  exists e,
    hd_error (calls_to GET_POSTS (snd r)) =
      Some (lookup_request canonical_arg [],
            Response (status_response 503 (lit "Service Unavailable"))) /\
    lookup_result (Response (status_response 503 (lit "Service Unavailable")))
      = Err e /\
    fst r = 1%Z /\
    calls_to CREATE_SESSION (snd r) = [] /\
    exists tr0, snd r = tr0 ++ [error_line plain_runtime e].
Proof.
  intros r.
  pose (rep := Response (status_response 503 (lit "Service Unavailable"))).
  assert (H0 : hd_error (calls_to GET_POSTS (snd r)) =
               Some (lookup_request canonical_arg [], rep))
    by (vm_compute; reflexivity).
  destruct (lookup_result rep) as [d|e] eqn:E;
    [vm_compute in E; discriminate E|].
  exists e.
  destruct (@other_failures_are_not_retried plain_runtime failing_network
              _ _ _ _ _ (run_pair _ _) H0 eq_refl E) as (Hc & _ & Hs & Ht).
  repeat split; auto.
Defined.

(** X: a login that yields an empty token.  After a 401, when the login
    succeeds but its token is empty (or any other value that Python counts as
    false), the run still makes the second lookup, for the same reference,
    and that lookup carries no [Authorization] header. *)
Theorem empty_token_is_not_sent rt w (code : Z) (tr : trace)
    (req0 lreq : request) (r0 : response) (lrep : reply) (token : json) :
  run rt w = (code, tr) ->
  hd_error (calls_to GET_POSTS tr) = Some (req0, Response r0) ->
  status_code r0 = 401%Z ->
  In (lreq, lrep) (calls_to CREATE_SESSION tr) ->
  session_token lrep = Ok token ->
  truthy token = false ->
  exists at_uri rep1,
    req0 = lookup_request at_uri [] /\
    calls_to GET_POSTS tr =
    [(req0, Response r0); (lookup_request at_uri [], rep1)].
Proof.
  intros R H0 H401 Hin Htok Hfalse.
  destruct (run_calls _ _ R) as [(_ & _ & S & _)|(at_uri & o2 & F & _)].
  { rewrite S in Hin; contradiction. }
  inversion F as [rep Hu Ho Hg Hs Hc
                 |r e' cs Hr Hp Ho Hg Hs Hc
                 |r h p lrep' e' cs Hr Hl Ho Hg Hs Hc
                 |r h p lrep' token' rep1 cs Hr Hl Ho Hg Hs Hc];
    rewrite <- Hs in Hin; simpl in Hin; try contradiction;
    destruct Hin as [E|[]]; inversion E; subst lreq lrep'.
  - rewrite Hl in Htok; discriminate.
  - rewrite Hl in Htok; injection Htok as ->.
    rewrite <- Hg in H0; try rewrite <- Hg.
    simpl in H0; injection H0 as <- <-.
    exists at_uri, rep1; unfold auth_headers; rewrite Hfalse.
    split; reflexivity.
Qed.

Lemma empty_token_is_not_sent_witness :
  let tr := snd (run plain_runtime empty_token_network) in
  exists rep1,
    In (login_request (lit "alice.example") (lit "hunter2"),
        ok_reply (JObj [(lit "accessJwt", JStr [])]))
       (calls_to CREATE_SESSION tr) /\
    calls_to GET_POSTS tr =
    [(lookup_request canonical_arg [],
      Response (status_response 401 (lit "Unauthorized")));
     (lookup_request canonical_arg [], rep1)].
Proof.
  intros tr.
  pose (r0 := status_response 401 (lit "Unauthorized")).
  pose (lrep := ok_reply (JObj [(lit "accessJwt", JStr [])])).
  assert (H0 : hd_error (calls_to GET_POSTS tr) =
               Some (lookup_request canonical_arg [], Response r0))
    by (vm_compute; reflexivity).
  assert (Hin : In (login_request (lit "alice.example") (lit "hunter2"), lrep)
                   (calls_to CREATE_SESSION tr))
    by (vm_compute; left; reflexivity).
  destruct (@empty_token_is_not_sent plain_runtime empty_token_network
              _ _ _ _ _ _ (JStr []) (run_pair _ _) H0 eq_refl Hin
              eq_refl eq_refl) as (u & rep1 & Hu & Hl).
  injection Hu as Hu.
  exists rep1; split; [exact Hin|].
  rewrite <- Hu in Hl; exact Hl.
Defined.

(** ** The report *)

(** X: labels are listed.  When the last post lookup succeeds, the first
    post can be displayed and its labels are a non-empty list of objects, the
    run ends with the count of the labels, an empty line, one line per label
    in the order of the list (value and source, [unknown] for a member that
    is missing), an empty line, the heading and the JSON text of the list,
    and with status 0. *)
Theorem labels_are_listed rt w (code : Z) (tr : trace)
    (req : request) (rep : reply) (data post author text l : json)
    (rest ls : list json) :
  run rt w = (code, tr) ->
  last_call (calls_to GET_POSTS tr) = Some (req, rep) ->
  lookup_result rep = Ok data ->
  get data (lit "posts") (JArr []) = Ok (JArr (post :: rest)) ->
  get post (lit "labels") (JArr []) = Ok (JArr (l :: ls)) ->
  author_of post = Ok author ->
  text_of_post post = Ok text ->
  forallb is_object (l :: ls) = true ->
  code = 0%Z /\
  exists tr0,
    tr = tr0 ++ [found_line (List.length (l :: ls)); EvPrint []] ++
         map (label_line rt) (l :: ls) ++
         [EvPrint []; heading_line; dump_line rt (JArr (l :: ls))].
Proof.
  intros R L D Hp Hl Ha Ht Ho.
  destruct (run_report _ _ R L D) as (tr2 & o3 & tr3 & E2 & E3 & S3).
  rewrite (report_labels rt _ tr2 Hp Hl Ha Ht Ho) in E3.
  injection E3 as Ho3 Htr3; subst o3 tr3.
  cbn [settle] in S3; injection S3 as Hc Htr; subst code tr.
  split; [reflexivity|].
  eexists; reflexivity.
Qed.

Lemma labels_are_listed_witness :
  let r := run plain_runtime two_labels_network in
  fst r = 0%Z /\
  exists tr0,
    snd r = tr0 ++ [found_line 2; EvPrint []] ++
            map (label_line plain_runtime)
              [label "spam" "mod1"; label "nsfw" "mod2"] ++
            [EvPrint []; heading_line;
             dump_line plain_runtime
               (JArr [label "spam" "mod1"; label "nsfw" "mod2"])].
Proof.
  intros r.
  pose (ls := [label "spam" "mod1"; label "nsfw" "mod2"]).
  pose (post := post_of "alice.example" "hello" [(lit "labels", JArr ls)]).
  assert (L : last_call (calls_to GET_POSTS (snd r)) =
              Some (lookup_request canonical_arg [],
                    ok_reply (posts_doc [post])))
    by (vm_compute; reflexivity).
  exact (@labels_are_listed plain_runtime two_labels_network _ _ _ _
           (posts_doc [post]) post (JStr (lit "alice.example"))
           (JStr (lit "hello")) (label "spam" "mod1") []
           [label "nsfw" "mod2"] (run_pair _ _) L eq_refl eq_refl eq_refl
           eq_refl eq_refl eq_refl).
Defined.

(** X: a label that is not an object.  When the labels of the first post
    are a list whose first member that is not an object comes after some
    objects, the lines of those objects are printed, then the line
    [Error: ...] of the missing [get] method, and the run exits with status
    1: the labels after it, the heading and the JSON text are not printed. *)
Theorem odd_label_stops_the_list rt w (code : Z) (tr : trace)
    (req : request) (rep : reply) (data post author text odd : json)
    (rest good more : list json) :
  run rt w = (code, tr) ->
  last_call (calls_to GET_POSTS tr) = Some (req, rep) ->
  lookup_result rep = Ok data ->
  get data (lit "posts") (JArr []) = Ok (JArr (post :: rest)) ->
  get post (lit "labels") (JArr []) = Ok (JArr (good ++ odd :: more)) ->
  author_of post = Ok author ->
  text_of_post post = Ok text ->
  forallb is_object good = true ->
  is_object odd = false ->
  code = 1%Z /\
  exists tr0,
    tr = tr0 ++
         [found_line (List.length (good ++ odd :: more)); EvPrint []] ++
         map (label_line rt) good ++
         [error_line rt (AttributeError odd (lit "get"))].
Proof.
  intros R L D Hp Hl Ha Ht Hg Ho.
  destruct (run_report _ _ R L D) as (tr2 & o3 & tr3 & E2 & E3 & S3).
  rewrite (@report_odd_label rt _ _ _ _ _ _ _ _ tr2 Hp Hl Ha Ht Hg Ho) in E3.
  injection E3 as Ho3 Htr3; subst o3 tr3.
  cbn [settle] in S3; injection S3 as Hc Htr; subst code tr.
  split; [reflexivity|].
  exists (tr2 ++ post_lines rt author text).
  rewrite <- !app_assoc; reflexivity.
Qed.

Lemma odd_label_stops_the_list_witness :
  let r := run plain_runtime odd_label_network in
  fst r = 1%Z /\
  exists tr0,
    snd r = tr0 ++ [found_line 3; EvPrint []] ++
            map (label_line plain_runtime) [label "spam" "mod1"] ++
            [error_line plain_runtime
               (AttributeError (JStr (lit "nsfw")) (lit "get"))].
Proof.
  intros r.
  pose (ls := [label "spam" "mod1"; JStr (lit "nsfw"); label "porn" "mod2"]).
  pose (post := post_of "alice.example" "hello" [(lit "labels", JArr ls)]).
  assert (L : last_call (calls_to GET_POSTS (snd r)) =
              Some (lookup_request canonical_arg [],
                    ok_reply (posts_doc [post])))
    by (vm_compute; reflexivity).
  exact (@odd_label_stops_the_list plain_runtime odd_label_network _ _ _ _
           (posts_doc [post]) post (JStr (lit "alice.example"))
           (JStr (lit "hello")) (JStr (lit "nsfw")) []
           [label "spam" "mod1"] [label "porn" "mod2"]
           (run_pair _ _) L eq_refl eq_refl eq_refl eq_refl eq_refl
           eq_refl eq_refl).
Defined.

(** X: no list of posts.  When the last post lookup succeeds and the
    document has no [posts] member, or one that Python counts as false
    ([null], an empty list, an empty text, zero), the run ends like one with
    an empty list: the line [Post not found] last, status 1, and no
    [Error: ...] line. *)
Theorem falsy_posts_not_found rt w (code : Z) (tr : trace)
    (req : request) (rep : reply) (data posts : json) :
  run rt w = (code, tr) ->
  last_call (calls_to GET_POSTS tr) = Some (req, rep) ->
  lookup_result rep = Ok data ->
  get data (lit "posts") (JArr []) = Ok posts ->
  truthy posts = false ->
  code = 1%Z /\ (exists tr0, tr = tr0 ++ [not_found_line]) /\
  error_lines tr = [].
Proof.
  intros R L D Hp Hf.
  destruct (run_report _ _ R L D) as (tr2 & o3 & tr3 & E2 & E3 & S3).
  rewrite (report_not_found rt _ tr2 Hp Hf) in E3.
  injection E3 as Ho3 Htr3; subst o3 tr3.
  cbn [settle] in S3; injection S3 as Hc Htr; subst code tr.
  repeat split; eauto.
  rewrite error_lines_app, E2; reflexivity.
Qed.

Lemma falsy_posts_not_found_witness :
  let r := run plain_runtime no_posts_member_network in
  dict_get (@nil (str * json)) (lit "posts") = None /\
  fst r = 1%Z /\ (exists tr0, snd r = tr0 ++ [not_found_line]) /\
  error_lines (snd r) = [].
Proof.
  intros r; split; [reflexivity|].
  assert (L : last_call (calls_to GET_POSTS (snd r)) =
              Some (lookup_request canonical_arg [], ok_reply (JObj [])))
    by (vm_compute; reflexivity).
  exact (@falsy_posts_not_found plain_runtime no_posts_member_network
           _ _ _ _ (JObj []) (JArr []) (run_pair _ _) L eq_refl eq_refl
           eq_refl).
Defined.

(** X: a document that is not an object.  When the last post lookup succeeds
    with a document that is not a JSON object, nothing is printed about a
    post: the run ends with the line [Error: ...] of the missing [get]
    method, and with status 1. *)
Theorem odd_document_is_an_error rt w (code : Z) (tr : trace)
    (req : request) (rep : reply) (data : json) :
  run rt w = (code, tr) ->
  last_call (calls_to GET_POSTS tr) = Some (req, rep) ->
  lookup_result rep = Ok data ->
  is_object data = false ->
  code = 1%Z /\
  exists tr0,
    tr = tr0 ++ [error_line rt (AttributeError data (lit "get"))] /\
    error_lines tr0 = [].
Proof.
  intros R L D Ho.
  destruct (run_report _ _ R L D) as (tr2 & o3 & tr3 & E2 & E3 & S3).
  assert (E : report rt data tr2 =
              (Exc (AttributeError data (lit "get")), tr2))
    by (destruct data; try discriminate; reflexivity).
  rewrite E in E3; injection E3 as Ho3 Htr3; subst o3 tr3.
  cbn [settle] in S3; injection S3 as Hc Htr; subst code tr.
  split; [reflexivity|]; exists tr2; split; [reflexivity|exact E2].
Qed.

Lemma odd_document_is_an_error_witness :
  let r := run plain_runtime list_document_network in
  fst r = 1%Z /\
  exists tr0,
    snd r = tr0 ++ [error_line plain_runtime
                      (AttributeError (JArr []) (lit "get"))] /\
    error_lines tr0 = [].
Proof.
  intros r.
  assert (L : last_call (calls_to GET_POSTS (snd r)) =
              Some (lookup_request canonical_arg [], ok_reply (JArr [])))
    by (vm_compute; reflexivity).
  exact (@odd_document_is_an_error plain_runtime list_document_network
           _ _ _ _ (JArr []) (run_pair _ _) L eq_refl eq_refl).
Defined.

(** ** How runs end *)

Lemma never_exits_for_each {A} (items : list A) (body : A -> M unit) :
  (forall x, never_exits (body x)) -> never_exits (for_each items body).
Proof.
  intros Hb; induction items as [|x items IH]; simpl.
  - apply never_exits_ret.
  - apply never_exits_bind; auto.
Qed.

Ltac never_exits_step :=
  first
    [ apply never_exits_ret | apply never_exits_raise | apply never_exits_lift
    | apply never_exits_emit | apply never_exits_send
    | apply never_exits_for_each; intros
    | apply never_exits_bind; [|intros]
    | match goal with
      | |- never_exits (if ?c then _ else _) => destruct c
      | |- never_exits (match ?x with _ => _ end) => destruct x
      end ].

Lemma show_label_never_exits rt (l : json) : never_exits (show_label rt l).
Proof. unfold show_label, print; repeat never_exits_step. Qed.

(** [report] returns after the heading and the JSON text, and exits only
    with status 1 after the line [Post not found]. *)
Lemma report_ends rt (data : json) (tr tr' : trace) (o : outcome unit) :
  report rt data tr = (o, tr') ->
  match o with
  | Ret _ =>
      exists tr0 labels,
        tr' = tr0 ++ [EvPrint []; heading_line; dump_line rt labels]
  | SysExit c => c = 1%Z /\ tr' = tr ++ [not_found_line]
  | Exc _ => True
  end.
Proof.
  unfold report; rewrite bind_lift.
  destruct (get data (lit "posts") (JArr [])) as [posts|e];
    [|intros H; inversion H; exact I].
  destruct (truthy posts); cbn [negb].
  2:{ rewrite bind_print; unfold sys_exit; intros H; inversion H.
      split; reflexivity. }
  rewrite bind_lift.
  destruct (item0 posts) as [post|e]; [|intros H; inversion H; exact I].
  rewrite bind_lift.
  destruct (get post (lit "labels") (JArr [])) as [labels|e];
    [|intros H; inversion H; exact I].
  rewrite !bind_print, bind_lift.
  destruct (author_of post) as [author|e]; [|intros H; inversion H; exact I].
  rewrite bind_lift.
  destruct (text_of_post post) as [text|e]; [|intros H; inversion H; exact I].
  rewrite !bind_print.
  match goal with
  | |- bind ?m _ ?t = _ -> _ =>
      assert (N : never_exits m)
        by (unfold print; repeat never_exits_step;
            apply show_label_never_exits);
      unfold bind at 1; destruct (m t) as [[[]|e|c] tr6] eqn:B
  end.
  - rewrite !bind_print; unfold print, emit.
    intros H; injection H as <- <-.
    exists tr6, labels; rewrite <- !app_assoc; reflexivity.
  - intros H; inversion H; exact I.
  - exfalso; exact (N _ _ _ B).
Qed.

(** X: how a run ends.  Every run exits with status 0 or 1.  With status 0
    its output ends with an empty line, the heading [Full label data:] and
    the JSON text of the labels.  With status 1 its last line is the last
    line of the usage, the line [Post not found], or one line
    [Error: <message>] of an exception. *)
Theorem run_endings rt w (code : Z) (tr : trace) :
  run rt w = (code, tr) ->
  (code = 0%Z /\
   exists tr0 labels,
     tr = tr0 ++ [EvPrint []; heading_line; dump_line rt labels]) \/
  (code = 1%Z /\
   exists tr0,
     tr = tr0 ++ [usage_last_line] \/ tr = tr0 ++ [not_found_line] \/
     exists e, tr = tr0 ++ [error_line rt e]).
Proof.
  intros R.
  destruct (Nat.lt_ge_cases (List.length (argv w)) 2) as [Hargs|Hargs].
  { right; unfold run, main in R.
    apply Nat.ltb_lt in Hargs; rewrite Hargs in R.
    unfold usage, bind, print, emit, sys_exit in R; cbn [app] in R.
    injection R as <- <-; split; [reflexivity|].
    eexists (_ :: _ :: _ :: _ :: _ :: _ :: _ :: _ :: []); left; reflexivity. }
  destruct (run_cases _ _ Hargs R) as (o1 & ev1 & E1 & H).
  destruct o1 as [at_uri|e|c]; [| |contradiction].
  - destruct H as (o2 & tr2 & E2 & H).
    destruct o2 as [data|e|c]; [| |contradiction].
    + destruct H as (o3 & tr3 & E3 & S3).
      pose proof (report_ends _ _ _ E3) as Hend.
      destruct o3 as [[]|e|c]; cbn [settle] in S3; injection S3 as <- <-.
      * left; split; [reflexivity|exact Hend].
      * right; split; [reflexivity|]; exists tr3; right; right; eauto.
      * destruct Hend as [-> ->].
        right; split; [reflexivity|]; exists tr2; right; left; reflexivity.
    + cbn [settle] in H; injection H as <- <-.
      right; split; [reflexivity|]; exists tr2; right; right; eauto.
  - cbn [settle] in H; injection H as <- <-.
    right; split; [reflexivity|]; exists ev1; right; right; eauto.
Qed.

Lemma run_endings_witness :
  let r := run plain_runtime open_network in
  (fst r = 0%Z /\
   exists tr0 labels,
     snd r = tr0 ++ [EvPrint []; heading_line; dump_line plain_runtime labels])
  \/
  (fst r = 1%Z /\
   exists tr0,
     snd r = tr0 ++ [usage_last_line] \/ snd r = tr0 ++ [not_found_line] \/
     exists e, snd r = tr0 ++ [error_line plain_runtime e]).
Proof.
  exact (@run_endings plain_runtime open_network _ _ (run_pair _ _)).
Defined.

(** X: no argument.  Without an argument the run prints the nine lines of
    the usage, beginning with [Usage: ...], touches neither the network nor
    the environment nor the terminal, and exits with status 1. *)
Theorem usage_without_argument_only rt w :
  (List.length (argv w) < 2)%nat ->
  exists tr,
    run rt w = (1%Z, tr) /\
    forallb is_print tr = true /\ List.length tr = 9%nat /\
    hd_error tr =
      Some (EvPrint (lit "Usage: python check-labels.py <post-uri-or-url>")).
Proof.
  intros Hargs; unfold run, main.
  apply Nat.ltb_lt in Hargs; rewrite Hargs.
  unfold usage, bind, print, emit, sys_exit; cbn [app].
  eexists; split; [reflexivity|]; repeat split.
Qed.

Lemma usage_without_argument_only_witness :
  exists tr,
    run plain_runtime
      {| argv := [lit "check-labels.py"]; environ := env_credentials;
         stdin_line := fun _ _ => Ok [];
         tty_secret := fun _ _ => Ok [];
         http := serving did_doc |} = (1%Z, tr) /\
    forallb is_print tr = true /\ List.length tr = 9%nat /\
    hd_error tr =
      Some (EvPrint (lit "Usage: python check-labels.py <post-uri-or-url>")).
Proof.
  apply usage_without_argument_only; simpl; lia.
Defined.

(** ** Inputs that are refused *)

(** X: an input of no known form.  When the argument does not begin with
    [at://] and contains neither [xrpc/com.atproto.repo.getRecord] nor
    [bsky.app], the whole run is one line, [Error: Unrecognized input
    format], and status 1. *)
Theorem unrecognized_input_is_reported rt w :
  (2 <= List.length (argv w))%nat ->
  startswith (lit "at://") (nth 1 (argv w) []) = false ->
  contains (lit "xrpc/com.atproto.repo.getRecord") (nth 1 (argv w) []) = false ->
  contains (lit "bsky.app") (nth 1 (argv w) []) = false ->
  run rt w =
  (1%Z, [error_line rt (ValueError (lit "Unrecognized input format"))]).
Proof.
  intros Hargs H1 H2 H3; rewrite (run_eq rt w Hargs).
  unfold parse_input; rewrite H1, H2, H3; reflexivity.
Qed.

Lemma unrecognized_input_is_reported_witness :
  run plain_runtime (world_of unrecognized_arg no_env (serving did_doc)) =
  (1%Z,
   [error_line plain_runtime (ValueError (lit "Unrecognized input format"))]).
Proof.
  apply unrecognized_input_is_reported;
    [simpl; lia | reflexivity | reflexivity | reflexivity].
Defined.

(** X: a web URL without a post.  When the argument contains [bsky.app] (and
    is of neither earlier form) but the pattern
    [profile/<segment>/post/<key>] matches nowhere in it, the whole run is
    one line, [Error: Could not parse Bluesky URL], and status 1: the
    identity-resolution endpoint is not called. *)
Theorem web_url_without_post_is_reported rt w :
  (2 <= List.length (argv w))%nat ->
  startswith (lit "at://") (nth 1 (argv w) []) = false ->
  contains (lit "xrpc/com.atproto.repo.getRecord") (nth 1 (argv w) []) = false ->
  contains (lit "bsky.app") (nth 1 (argv w) []) = true ->
  re_search (nth 1 (argv w) []) = None ->
  run rt w =
  (1%Z, [error_line rt (ValueError (lit "Could not parse Bluesky URL"))]).
Proof.
  intros Hargs H1 H2 H3 H4; rewrite (run_eq rt w Hargs).
  unfold parse_input; rewrite H1, H2, H3, H4; reflexivity.
Qed.

Lemma web_url_without_post_is_reported_witness :
  run plain_runtime (world_of profile_only_arg no_env (serving did_doc)) =
  (1%Z,
   [error_line plain_runtime (ValueError (lit "Could not parse Bluesky URL"))]).
Proof.
  apply web_url_without_post_is_reported;
    [simpl; lia | reflexivity | reflexivity | reflexivity | reflexivity].
Defined.

(** X: an API URL with a parameter missing.  When the argument contains
    [xrpc/com.atproto.repo.getRecord] and one of [repo], [collection] and
    [rkey] is absent from its query or empty, the whole run is one line,
    [Error: Could not parse API URL], and status 1. *)
Theorem api_url_missing_parameter_is_reported rt w (query : str)
    (repo collection rkey : option str) :
  (2 <= List.length (argv w))%nat ->
  startswith (lit "at://") (nth 1 (argv w) []) = false ->
  contains (lit "xrpc/com.atproto.repo.getRecord") (nth 1 (argv w) []) = true ->
  urlparse_query rt (nth 1 (argv w) []) = Ok query ->
  first_value (parse_qs rt query) (lit "repo") = Ok repo ->
  first_value (parse_qs rt query) (lit "collection") = Ok collection ->
  first_value (parse_qs rt query) (lit "rkey") = Ok rkey ->
  present repo && present collection && present rkey = false ->
  run rt w =
  (1%Z, [error_line rt (ValueError (lit "Could not parse API URL"))]).
Proof.
  intros Hargs H1 H2 Hq Hr Hc Hk Hp; rewrite (run_eq rt w Hargs).
  unfold parse_input; rewrite H1, H2.
  rewrite bind_lift, Hq, bind_lift, Hr, bind_lift, Hc, bind_lift, Hk, Hp.
  reflexivity.
Qed.

Lemma api_url_missing_parameter_is_reported_witness :
  run plain_runtime (world_of api_without_rkey_arg no_env (serving did_doc)) =
  (1%Z,
   [error_line plain_runtime (ValueError (lit "Could not parse API URL"))]).
Proof.
  apply (@api_url_missing_parameter_is_reported plain_runtime
           (world_of api_without_rkey_arg no_env (serving did_doc))
           (lit "repo=did:plc:abc&collection=app.bsky.feed.post")
           (Some (lit "did:plc:abc")) (Some (lit "app.bsky.feed.post")) None);
    [simpl; lia | reflexivity..].
Defined.

(** X: a handle that does not resolve.  For a web URL on which the pattern
    matches, when the identity-resolution endpoint answers with a document
    that has no [did] member, or one that Python counts as false, the run is
    the progress line, that one call, and the line
    [Error: Could not resolve handle to DID]; no post lookup is made and the
    status is 1. *)
Theorem unresolved_handle_is_reported rt w (handle rkey : str)
    (r : response) (body did : json) :
  (2 <= List.length (argv w))%nat ->
  startswith (lit "at://") (nth 1 (argv w) []) = false ->
  contains (lit "xrpc/com.atproto.repo.getRecord") (nth 1 (argv w) []) = false ->
  contains (lit "bsky.app") (nth 1 (argv w) []) = true ->
  re_search (nth 1 (argv w) []) = Some (handle, rkey) ->
  http w [resolving_line handle] (resolve_request handle) = Response r ->
  raise_for_status r = Ok tt ->
  payload r = Json body ->
  get body (lit "did") JNull = Ok did ->
  truthy did = false ->
  run rt w =
  (1%Z,
   [resolving_line handle; EvHttp (resolve_request handle) (Response r);
    error_line rt (ValueError (lit "Could not resolve handle to DID"))]).
Proof.
  intros Hargs H1 H2 H3 H4 Hrep Hs Hb Hd Hf; rewrite (run_eq rt w Hargs).
  rewrite (parse_web_url rt w _ [] H1 H2 H3 H4).
  cbn [app]; rewrite Hrep; cbn [resolved].
  unfold resp_json; rewrite Hs, Hb; cbn [rbind]; rewrite Hd; cbn [rbind].
  rewrite Hf; reflexivity.
Qed.

Lemma unresolved_handle_is_reported_witness :
  run plain_runtime (world_of handle_profile_arg no_env (serving (JObj []))) =
  (1%Z,
   [resolving_line (lit "alice.example");
    EvHttp (resolve_request (lit "alice.example"))
      (Response (ok_response (JObj [])));
    error_line plain_runtime
      (ValueError (lit "Could not resolve handle to DID"))]).
Proof.
  apply (@unresolved_handle_is_reported plain_runtime
           (world_of handle_profile_arg no_env (serving (JObj [])))
           (lit "alice.example") (lit "xyz") (ok_response (JObj []))
           (JObj []) JNull);
    [simpl; lia | reflexivity..].
Defined.

(** ** The pattern *)

Lemma after_prefix_app (p s : str) : after_prefix p (p ++ s) = Some s.
Proof.
  induction p as [|c p IH]; simpl; [reflexivity|].
  now rewrite N.eqb_refl.
Qed.

(** A run of a class followed by the rest of the text. *)
Lemma span_app (p : N -> bool) (a b : str) :
  forallb p a = true ->
  span p (a ++ b) = (a ++ fst (span p b), snd (span p b)).
Proof.
  induction a as [|c a IH]; simpl; intros H.
  - now destruct (span p b).
  - apply andb_true_iff in H as [Hc Ha].
    rewrite Hc, (IH Ha); reflexivity.
Qed.

(** A match at the head of a text: both groups are runs of their classes,
    not empty, and the second cannot be extended. *)
Lemma match_at_exact (s handle rkey : str) :
  match_at s = Some (handle, rkey) ->
  exists rest,
    s = lit "profile/" ++ handle ++ lit "/post/" ++ rkey ++ rest /\
    handle <> [] /\ forallb handle_char handle = true /\
    rkey <> [] /\ forallb rkey_char rkey = true /\
    match rest with [] => True | c :: _ => rkey_char c = false end.
Proof.
  unfold match_at.
  destruct (after_prefix (lit "profile/") s) as [s1|] eqn:E1; [|discriminate].
  destruct (span handle_char s1) as [h s2] eqn:E2.
  destruct h as [|c h]; [discriminate|].
  destruct (after_prefix (lit "/post/") s2) as [s3|] eqn:E3; [|discriminate].
  destruct (span rkey_char s3) as [k s4] eqn:E4.
  destruct k as [|c' k]; [discriminate|].
  intros H; inversion H; subst handle rkey.
  apply after_prefix_spec in E1, E3.
  apply span_spec in E2 as (E2 & Hh & _), E4 as (E4 & Hk & Hstop).
  exists s4; repeat split; try discriminate; auto.
  subst; rewrite <- ?app_assoc; reflexivity.
Qed.

(** X: what the pattern extracts.  When the pattern matches, the text is
    [... profile/<segment>/post/<key> ...] for the two groups it returns:
    the segment is not empty and has no [/]; the key is not empty, has no
    [/], no [?] and no white space, and is followed by the end of the text
    or by one of those characters. *)
Theorem pattern_match_is_exact (s segment rkey : str) :
  re_search s = Some (segment, rkey) ->
  exists before rest,
    s = before ++ lit "profile/" ++ segment ++ lit "/post/" ++ rkey ++ rest /\
    segment <> [] /\ forallb handle_char segment = true /\
    rkey <> [] /\ forallb rkey_char rkey = true /\
    match rest with [] => True | c :: _ => rkey_char c = false end.
Proof.
  induction s as [|c s IH]; simpl.
  - discriminate.
  - destruct (match_at (c :: s)) as [m|] eqn:E.
    + intros H; inversion H; subst m.
      destruct (match_at_exact _ E) as (rest & Hs & Hrest).
      exists [], rest; split; [exact Hs|exact Hrest].
    + intros H; destruct (IH H) as (before & rest & -> & Hrest).
      exists (c :: before), rest; split; [reflexivity|exact Hrest].
Qed.

Lemma pattern_match_is_exact_witness :
  re_search did_profile_arg = Some (lit "did:plc:abc123", lit "xyz") /\
  exists before rest,
    did_profile_arg =
      before ++ lit "profile/" ++ lit "did:plc:abc123" ++ lit "/post/"
      ++ lit "xyz" ++ rest /\
    match rest with [] => True | c :: _ => rkey_char c = false end.
Proof.
  split; [reflexivity|].
  destruct (@pattern_match_is_exact did_profile_arg (lit "did:plc:abc123")
              (lit "xyz") eq_refl)
    as (before & rest & Hs & _ & _ & _ & _ & Hrest).
  exists before, rest; split; [exact Hs|exact Hrest].
Defined.

(** A text that begins with [profile/<segment>/post/<key>] matches at its
    head, with the key extended as far as its class goes. *)
Lemma match_at_complete (segment rkey rest : str) :
  segment <> [] -> forallb handle_char segment = true ->
  rkey <> [] -> forallb rkey_char rkey = true ->
  match_at (lit "profile/" ++ segment ++ lit "/post/" ++ rkey ++ rest) =
  Some (segment, rkey ++ fst (span rkey_char rest)).
Proof.
  intros Hs Hsc Hk Hkc; unfold match_at.
  rewrite after_prefix_app, (span_app _ _ _ Hsc).
  change (span handle_char (lit "/post/" ++ rkey ++ rest))
    with (@nil N, lit "/post/" ++ rkey ++ rest).
  cbn [fst snd]; rewrite app_nil_r.
  destruct segment as [|c segment]; [contradiction|].
  rewrite after_prefix_app, (span_app _ _ _ Hkc).
  destruct rkey as [|c' rkey]; [contradiction|].
  reflexivity.
Qed.

Lemma re_search_head (s : str) (m : str * str) :
  match_at s = Some m -> re_search s = Some m.
Proof.
  intros H; destruct s as [|c s]; [vm_compute in H; discriminate H|].
  simpl; rewrite H; reflexivity.
Qed.

(** X: what the pattern accepts.  Every text that contains
    [profile/<segment>/post/<key>], with a segment that is not empty and has
    no [/] and a key that is not empty and has no [/], [?] or white space, is
    matched; and when the text begins with it, the groups are that segment
    and that key, the key extended to the next [/], [?], white space or the
    end. *)
Theorem pattern_accepts_post_urls (before segment rkey rest : str) :
  segment <> [] -> forallb handle_char segment = true ->
  rkey <> [] -> forallb rkey_char rkey = true ->
  re_search (before ++ lit "profile/" ++ segment ++ lit "/post/" ++ rkey
             ++ rest) <> None /\
  re_search (lit "profile/" ++ segment ++ lit "/post/" ++ rkey ++ rest) =
  Some (segment, rkey ++ fst (span rkey_char rest)).
Proof.
  intros Hs Hsc Hk Hkc.
  pose proof (match_at_complete rest Hs Hsc Hk Hkc) as Hm.
  assert (Hhead :
    re_search (lit "profile/" ++ segment ++ lit "/post/" ++ rkey ++ rest) =
    Some (segment, rkey ++ fst (span rkey_char rest))).
  { apply re_search_head; exact Hm. }
  split; [|exact Hhead].
  induction before as [|c before IH].
  - rewrite app_nil_l, Hhead; discriminate.
  - simpl.
    destruct (match_at (c :: before ++ _)); [discriminate|exact IH].
Qed.

Lemma pattern_accepts_post_urls_witness :
  re_search (lit "https://bsky.app/" ++ lit "profile/" ++ lit "alice.example"
             ++ lit "/post/" ++ lit "xyz" ++ lit "?ref=home") <> None /\
  re_search (lit "profile/" ++ lit "alice.example" ++ lit "/post/"
             ++ lit "xyz" ++ lit "?ref=home") =
  Some (lit "alice.example", lit "xyz" ++ fst (span rkey_char (lit "?ref=home"))).
Proof.
  apply pattern_accepts_post_urls;
    [discriminate | reflexivity | discriminate | reflexivity].
Defined.

(** ** The login call *)

(** X: what a login yields.  [create_session] always makes exactly one call,
    a POST of the identifier and the password to the login endpoint.  It
    returns a token exactly when the response has a status outside 400..599
    and a body that is an object with an [accessJwt] member, and the token is
    that member; when the body is an object without it, the call raises
    [KeyError]. *)
Theorem create_session_outcome w (handle password : str) (tr : trace) :
  exists o rep,
    create_session w handle password tr =
    (o, tr ++ [EvHttp (login_request handle password) rep]) /\
    (forall token,
       o = Ret token <->
       exists r d, rep = Response r /\ raise_for_status r = Ok tt /\
                   payload r = Json (JObj d) /\
                   dict_get d (lit "accessJwt") = Some token) /\
    (forall r d, rep = Response r -> raise_for_status r = Ok tt ->
                 payload r = Json (JObj d) ->
                 dict_get d (lit "accessJwt") = None ->
                 o = Exc (KeyError (JStr (lit "accessJwt")))).
Proof.
  rewrite create_session_run.
  exists (outcome_of (session_token (http w tr (login_request handle password)))),
    (http w tr (login_request handle password)).
  split; [reflexivity|].
  destruct (http w tr (login_request handle password)) as [r|msg];
    cbn [session_token].
  2:{ split.
      - intros token; split; [discriminate|].
        intros (r & d & H & _); discriminate H.
      - intros r d H; discriminate H. }
  unfold resp_json.
  destruct (raise_for_status r) as [[]|e] eqn:Es; cbn [rbind].
  2:{ split.
      - intros token; split; [discriminate|].
        intros (r' & d & H & Hs & _); inversion H; subst r'.
        rewrite Es in Hs; discriminate Hs.
      - intros r' d H Hs; inversion H; subst r'.
        rewrite Es in Hs; discriminate Hs. }
  destruct (payload r) as [body|c] eqn:Ep; cbn [rbind].
  2:{ split.
      - intros token; split; [discriminate|].
        intros (r' & d & H & _ & Hp & _); inversion H; subst r'.
        rewrite Ep in Hp; discriminate Hp.
      - intros r' d H _ Hp; inversion H; subst r'.
        rewrite Ep in Hp; discriminate Hp. }
  split.
  - intros token; split.
    + destruct body; try discriminate; simpl.
      destruct (dict_get d (lit "accessJwt")) as [v|] eqn:Ed;
        [|discriminate].
      intros H; inversion H; subst v; exists r, d; auto.
    + intros (r' & d & H & _ & Hp & Hd); inversion H; subst r'.
      rewrite Ep in Hp; inversion Hp; subst body.
      simpl; rewrite Hd; reflexivity.
  - intros r' d H _ Hp Hd; inversion H; subst r'.
    rewrite Ep in Hp; inversion Hp; subst body.
    simpl; rewrite Hd; reflexivity.
Qed.

(** X: a retried lookup that fails.  When a run has made two post lookups
    and the second fails, with whatever failure, a 401 included, the run
    makes no third lookup: it prints the line [Error: <message>] of that
    failure last and exits with status 1. *)
Theorem failed_retry_is_fatal rt w (code : Z) (tr : trace)
    (first : request * reply) (req1 : request) (rep1 : reply) (e : exn) :
  run rt w = (code, tr) ->
  firstn 2 (calls_to GET_POSTS tr) = [first; (req1, rep1)] ->
  lookup_result rep1 = Err e ->
  code = 1%Z /\
  calls_to GET_POSTS tr = [first; (req1, rep1)] /\
  exists tr0, tr = tr0 ++ [error_line rt e].
Proof.
  intros R H2 E.
  destruct (run_around_fetch _ _ R)
    as [(_ & Q)|(at_uri & o2 & pre & ev2 & tail & Q & P & -> & Pt & Hexc)].
  { destruct (outside_fetch_quiet _ Q) as (G & _).
    rewrite G in H2; discriminate. }
  destruct (outside_fetch_quiet _ Q) as (G1 & _).
  destruct (outside_fetch_quiet _ (prints_outside_fetch _ Pt)) as (G3 & _).
  rewrite !calls_to_app, G1, G3, !app_nil_r in *.
  cbn [app] in *.
  invert_path P; revert H2; read_path; intros H2;
    simpl in H2; try discriminate H2;
    (injection H2 as <- <- <-;
     rewrite E in Hexc; destruct (Hexc e eq_refl) as [-> ->];
     repeat split;
     match goal with
     | |- exists tr0, pre ++ ?L = tr0 ++ [_] =>
         exists (pre ++ removelast L); rewrite <- app_assoc; reflexivity
     end).
Qed.

Lemma failed_retry_is_fatal_witness :
  let r := run plain_runtime never_authorised_network in
  let reply401 := Response (status_response 401 (lit "Unauthorized")) in
  exists e,
    calls_to GET_POSTS (snd r) =
      [(lookup_request canonical_arg [], reply401);
       (lookup_request canonical_arg
          (bearer plain_runtime (JStr (lit "jwt-1"))), reply401)] /\
    lookup_result reply401 = Err e /\
    fst r = 1%Z /\
    exists tr0, snd r = tr0 ++ [error_line plain_runtime e].
Proof.
  intros r reply401.
  assert (H2 : firstn 2 (calls_to GET_POSTS (snd r)) =
               [(lookup_request canonical_arg [], reply401);
                (lookup_request canonical_arg
                   (bearer plain_runtime (JStr (lit "jwt-1"))), reply401)])
    by (vm_compute; reflexivity).
  destruct (lookup_result reply401) as [d|e] eqn:E;
    [vm_compute in E; discriminate E|].
  exists e.
  destruct (@failed_retry_is_fatal plain_runtime never_authorised_network
              _ _ _ _ _ _ (run_pair _ _) H2 E) as (Hc & Hl & Ht).
  repeat split; auto.
Defined.

(** ** References that are built *)

(** X: the reference of an API URL.  When the argument contains
    [xrpc/com.atproto.repo.getRecord] and its query has a value for each of
    [repo], [collection] and [rkey], the resolver returns
    [at://<repo>/<collection>/<rkey>] for the first value of each, and
    nothing is printed or called. *)
Theorem api_url_is_resolved rt w (input_str query repo collection rkey : str)
    (tr : trace) :
  startswith (lit "at://") input_str = false ->
  contains (lit "xrpc/com.atproto.repo.getRecord") input_str = true ->
  urlparse_query rt input_str = Ok query ->
  first_value (parse_qs rt query) (lit "repo") = Ok (Some repo) ->
  first_value (parse_qs rt query) (lit "collection") = Ok (Some collection) ->
  first_value (parse_qs rt query) (lit "rkey") = Ok (Some rkey) ->
  repo <> [] -> collection <> [] -> rkey <> [] ->
  parse_input rt w input_str tr = (Ret (triple repo collection rkey), tr).
Proof.
  intros H1 H2 Hq Hr Hc Hk Nr Nc Nk.
  unfold parse_input; rewrite H1, H2.
  rewrite bind_lift, Hq, bind_lift, Hr, bind_lift, Hc, bind_lift, Hk.
  rewrite !present_some by assumption; reflexivity.
Qed.

Lemma api_url_is_resolved_witness :
  parse_input plain_runtime open_network api_url_arg [] =
  (Ret (triple (lit "did:plc:abc") (lit "app.bsky.feed.post") (lit "xyz")),
   []).
Proof.
  apply (@api_url_is_resolved plain_runtime open_network api_url_arg
           (lit "repo=did:plc:abc&collection=app.bsky.feed.post&rkey=xyz"));
    try reflexivity; discriminate.
Defined.

(** X: the reference of a web URL.  For a web URL on which the pattern
    matches, when the identity-resolution endpoint answers with an object
    whose [did] is a text that is not empty, the resolver returns
    [at://<did>/app.bsky.feed.post/<key>] for the key of the URL, after its
    progress line and that one call. *)
Theorem web_url_is_resolved rt w (input_str segment rkey did : str)
    (r : response) (d : list (str * json)) (tr : trace) :
  startswith (lit "at://") input_str = false ->
  contains (lit "xrpc/com.atproto.repo.getRecord") input_str = false ->
  contains (lit "bsky.app") input_str = true ->
  re_search input_str = Some (segment, rkey) ->
  http w (tr ++ [resolving_line segment]) (resolve_request segment)
    = Response r ->
  raise_for_status r = Ok tt ->
  payload r = Json (JObj d) ->
  dict_get d (lit "did") = Some (JStr did) ->
  did <> [] ->
  parse_input rt w input_str tr =
  (Ret (triple did (lit "app.bsky.feed.post") rkey),
   tr ++ [resolving_line segment;
          EvHttp (resolve_request segment) (Response r)]).
Proof.
  intros H1 H2 H3 H4 Hrep Hs Hb Hd Hn.
  rewrite (parse_web_url rt w _ tr H1 H2 H3 H4), Hrep; cbn [resolved].
  unfold resp_json; rewrite Hs, Hb; cbn [rbind get]; rewrite Hd; cbn [rbind].
  destruct did as [|c did]; [contradiction|].
  cbn [truthy negb outcome_of to_str]; rewrite <- app_assoc; reflexivity.
Qed.

Lemma web_url_is_resolved_witness :
  parse_input plain_runtime
    (world_of handle_profile_arg no_env (serving did_doc))
    handle_profile_arg [] =
  (Ret (triple (lit "did:plc:999") (lit "app.bsky.feed.post") (lit "xyz")),
   [resolving_line (lit "alice.example");
    EvHttp (resolve_request (lit "alice.example"))
      (Response (ok_response did_doc))]).
Proof.
  apply (@web_url_is_resolved plain_runtime
           (world_of handle_profile_arg no_env (serving did_doc))
           handle_profile_arg (lit "alice.example") (lit "xyz")
           (lit "did:plc:999") (ok_response did_doc)
           [(lit "did", JStr (lit "did:plc:999"))] []);
    try reflexivity; discriminate.
Defined.

(** ** The text that is displayed *)

(** X: the text is cut at 100.  When the last post lookup succeeds and its
    first post has an author whose handle can be read and a record that is
    an object, the lookup is followed by the lines of the post, and the line
    of the text shows the first 100 code points of the record's [text]
    followed by three dots, which are there whether or not anything was cut;
    a record with no [text] shows the three dots alone. *)
Theorem text_is_cut_at_100 rt w (code : Z) (tr : trace)
    (req : request) (rep : reply) (data author : json)
    (d r : list (str * json)) (rest : list json) (s : str) :
  run rt w = (code, tr) ->
  last_call (calls_to GET_POSTS tr) = Some (req, rep) ->
  lookup_result rep = Ok data ->
  get data (lit "posts") (JArr []) = Ok (JArr (JObj d :: rest)) ->
  author_of (JObj d) = Ok author ->
  dict_get d (lit "record") = Some (JObj r) ->
  dict_get r (lit "text") = Some (JStr s) \/
  (dict_get r (lit "text") = None /\ s = []) ->
  exists tr1 tail,
    tr = tr1 ++ EvHttp req rep ::
         [EvPrint (9989%N :: lit " Post found"); EvPrint [];
          EvPrint (128100%N :: lit " Author: " ++ to_str rt author);
          text_line (firstn 100 s); EvPrint []] ++ tail /\
    forallb is_print tail = true.
Proof.
  intros R L D Hp Ha Hr Hs.
  assert (Ht : text_of_post (JObj d) = Ok (JStr (firstn 100 s))).
  { unfold text_of_post; simpl subscript; rewrite Hr; cbn [rbind get].
    destruct Hs as [Hs|[Hs ->]]; rewrite Hs; reflexivity. }
  destruct (run_after_lookup _ _ R L D) as (tr1 & o3 & tr3 & E3 & S3).
  destruct (@report_post_first rt data (JObj d) author _ rest _ _ _
              Hp eq_refl Ha Ht E3) as (ev3 & -> & P3).
  destruct (settle_keeps _ _ _ S3) as (tail & -> & Pt).
  exists tr1, (ev3 ++ tail); split.
  - unfold post_lines, text_line; cbn [to_str].
    rewrite <- !app_assoc; reflexivity.
  - rewrite forallb_app, P3, Pt; reflexivity.
Qed.

Lemma text_is_cut_at_100_witness :
  let r := run plain_runtime long_text_network in
  let d := [(lit "author", JObj [(lit "handle", JStr (lit "alice.example"))]);
            (lit "record", JObj [(lit "text", JStr long_text)])] in
  let req := lookup_request canonical_arg [] in
  let rep := ok_reply (posts_doc [JObj d]) in
  List.length long_text = 120%nat /\
  last_call (calls_to GET_POSTS (snd r)) = Some (req, rep) /\
  exists tr1 tail,
    snd r = tr1 ++ EvHttp req rep ::
            [EvPrint (9989%N :: lit " Post found"); EvPrint [];
             EvPrint (128100%N :: lit " Author: alice.example");
             text_line (repeat 97%N 100); EvPrint []] ++ tail /\
    forallb is_print tail = true.
Proof.
  intros r d req rep; split; [reflexivity|].
  assert (L : last_call (calls_to GET_POSTS (snd r)) = Some (req, rep))
    by (vm_compute; reflexivity).
  split; [exact L|].
  exact (@text_is_cut_at_100 plain_runtime long_text_network _ _ _ _ _
           (JStr (lit "alice.example")) d
           [(lit "text", JStr long_text)] [] long_text
           (run_pair _ _) L eq_refl eq_refl eq_refl eq_refl
           (or_introl eq_refl)).
Defined.
